(** * A shallow embedding of [main.py], the PDF retrieval script.

    The script reads a JSON listing, keeps the identifiers that end in
    [_PDF], turns them into download URLs and drives a Chrome session over
    them, skipping the files that are already on disk.

    Python values are an inductive type, exceptions are a sum type, and the
    effects of [main] (file system, console, browser) are threaded through an
    explicit world by a state-and-exception monad.  The JSON decoder
    ([json.loads]) and the browser (Selenium's [webdriver.Chrome]) are not
    part of the script: they are parameters of the development. *)

From Stdlib Require Import ZArith Ascii String List Floats.PrimFloat.
From stdpp Require Import base option list strings gmap.

Local Open Scope string_scope.
Local Open Scope list_scope.

Set Warnings "-register-all".

(** ** Python values *)

(** The values [json.loads] can produce.  A [dict] keeps its items in
    insertion order, keys pairwise distinct; a [float] is an IEEE binary64
    number.  Strings are sequences of 8-bit code units: every operation the
    script applies to a string ([endswith "_PDF"], concatenation, equality,
    the search for ['/']) is insensitive to how a character above 127 is
    split into units. *)
Inductive pyval : Type :=
  | PNone
  | PBool (b : bool)
  | PInt (z : Z)
  | PFloat (f : float)
  | PStr (s : string)
  | PList (l : list pyval)
  | PDict (d : list (string * pyval)).

(** ** Exceptions *)

Inductive exn_class : Type :=
  | JSONDecodeError
  | KeyError
  | TypeError
  | AttributeError
  | IndexError
  | FileExistsError
  | FileNotFoundError
  | IsADirectoryError
  | WebDriverException
  | OtherException (name : string).

(** An exception object: its class and [str(e)]. *)
Record pyexn : Type := Exn { exn_cls : exn_class; exn_str : string }.

Inductive result (A : Type) : Type :=
  | Ok (a : A)
  | Raise (e : pyexn).
Arguments Ok {A} a.
Arguments Raise {A} e.

#[global] Instance result_ret : MRet result := λ A a, Ok a.
#[global] Instance result_bind : MBind result := λ A B k r,
  match r with
  | Ok a => k a
  | Raise e => Raise e
  end.

(** [type(v).__name__] *)
Definition type_name (v : pyval) : string :=
  match v with
  | PNone => "NoneType"
  | PBool _ => "bool"
  | PInt _ => "int"
  | PFloat _ => "float"
  | PStr _ => "str"
  | PList _ => "list"
  | PDict _ => "dict"
  end.

(** ** Strings *)

(** [s.endswith(suffix)]: the last [len(suffix)] characters of [s] are
    [suffix]. *)
Definition endswith (s suffix : string) : bool :=
  (String.length suffix <=? String.length s)%nat
  && String.eqb
       (substring (String.length s - String.length suffix)
                  (String.length suffix) s)
       suffix.

(** The characters of a string, each as a string of length one: what a
    [for] loop over a [str] yields. *)
Fixpoint str_chars (s : string) : list string :=
  match s with
  | EmptyString => []
  | String c r => String c EmptyString :: str_chars r
  end.

(** [sep.join(parts)] for [sep = ""]. *)
Definition join_empty (parts : list string) : string :=
  fold_right String.append "" parts.

(** ** Dictionaries *)

Fixpoint dict_lookup (k : string) (d : list (string * pyval)) : option pyval :=
  match d with
  | [] => None
  | (k', v) :: d' => if String.eqb k' k then Some v else dict_lookup k d'
  end.

(** [v.get(key, default)]: only a [dict] has the method. *)
Definition py_get (v : pyval) (key : string) (dflt : pyval) : result pyval :=
  match v with
  | PDict d => Ok (default dflt (dict_lookup key d))
  | _ => Raise (Exn AttributeError
                  ("'" +:+ type_name v +:+ "' object has no attribute 'get'"))
  end.

(** [iter(v)], fully consumed: a [list] yields its elements, a [dict] its
    keys, a [str] its characters; nothing else that [json.loads] returns is
    iterable. *)
Definition py_iter (v : pyval) : result (list pyval) :=
  match v with
  | PList l => Ok l
  | PDict d => Ok (map (λ kv, PStr kv.1) d)
  | PStr s => Ok (map PStr (str_chars s))
  | _ => Raise (Exn TypeError
                  ("'" +:+ type_name v +:+ "' object is not iterable"))
  end.

(** [l[0]] on a [list]. *)
Definition list_item0 (l : list pyval) : result pyval :=
  match l with
  | x :: _ => Ok x
  | [] => Raise (Exn IndexError "list index out of range")
  end.

(** [v[key]] for a string [key]: a [dict] looks the key up ([str(e)] of the
    [KeyError] is the key's [repr]); a [list] or [str] wants an integer
    index; the other values are not subscriptable. *)
Definition py_subscript (v : pyval) (key : string) : result pyval :=
  match v with
  | PDict d =>
      match dict_lookup key d with
      | Some x => Ok x
      | None => Raise (Exn KeyError ("'" +:+ key +:+ "'"))
      end
  | PList _ =>
      Raise (Exn TypeError "list indices must be integers or slices, not str")
  | PStr _ => Raise (Exn TypeError "string indices must be integers, not 'str'")
  | _ => Raise (Exn TypeError
                  ("'" +:+ type_name v +:+ "' object is not subscriptable"))
  end.

(** [v == s] for a string [s]: only an equal [str] compares equal. *)
Definition py_eq_str (v : pyval) (s : string) : bool :=
  match v with
  | PStr t => String.eqb t s
  | _ => false
  end.

(** [v == n] for an integer [n]: an [int] by value, a [float] when it is
    exactly [n] (given as the float [nf]); [True] and [False] are the
    integers 1 and 0; nothing else equals a number. *)
Definition py_eq_num (v : pyval) (n : Z) (nf : float) : bool :=
  match v with
  | PInt z => (z =? n)%Z
  | PFloat f => PrimFloat.eqb f nf
  | PBool b => ((if b then 1 else 0) =? n)%Z
  | _ => false
  end.

(** ** [extract_pdf_urls] *)

(** The classes named by [except (json.JSONDecodeError, KeyError, TypeError)]. *)
Definition caught_by_extract (c : exn_class) : bool :=
  match c with
  | JSONDecodeError | KeyError | TypeError => true
  | _ => false
  end.

(** One row of the comprehension
    [[row[0] for row in records if isinstance(row, list) and
      isinstance(row[0], str) and row[0].endswith("_PDF")]]:
    [Some] identifier when the row is kept, [None] when the condition is
    false, and the [IndexError] of [row[0]] on an empty list. *)
Definition pdf_id_of_row (row : pyval) : result (option string) :=
  match row with
  | PList l =>
      x ← list_item0 l;
      match x with
      | PStr s => Ok (if endswith s "_PDF" then Some s else None)
      | _ => Ok None
      end
  | _ => Ok None
  end.

(** The comprehension, row after row; the first exception ends it. *)
Fixpoint pdf_ids_of (records : list pyval) : result (list string) :=
  match records with
  | [] => Ok []
  | row :: rest =>
      keep ← pdf_id_of_row row;
      ids ← pdf_ids_of rest;
      Ok (match keep with Some pdf_id => pdf_id :: ids | None => ids end)
  end.

Section Extractor.

(** [json.loads]: the decoded value, or the exception it raises
    ([JSONDecodeError] on malformed text). *)
Variable json_loads : string → result pyval.

(** [parsed_json.get("data", {}).get("Data", [])] after [json.loads], and
    the rows the comprehension will run over. *)
Definition listing_rows (json_string : string) : result (list pyval) :=
  parsed_json ← json_loads json_string;
  data ← py_get parsed_json "data" (PDict []);
  records ← py_get data "Data" (PList []);
  py_iter records.

(** The body of the [try] block. *)
Definition extract_pdf_urls_try (json_string base_url : string)
  : result (list string) :=
  rows ← listing_rows json_string;
  pdf_ids ← pdf_ids_of rows;
  Ok (map (λ pdf_id, base_url +:+ "/" +:+ pdf_id) pdf_ids).

(** [extract_pdf_urls]: the lines it prints and what it returns or
    raises. *)
Definition extract_pdf_urls (json_string base_url : string)
  : list string * result (list string) :=
  match extract_pdf_urls_try json_string base_url with
  | Ok pdf_urls => ([], Ok pdf_urls)
  | Raise e =>
      if caught_by_extract (exn_cls e)
      then (["Error parsing JSON: " +:+ exn_str e], Ok [])
      else ([], Raise e)
  end.

End Extractor.

(** ** Paths *)

(** [p.rfind(c)]: the index of the last occurrence of [c], or [-1]. *)
Fixpoint rfind (c : ascii) (p : string) : Z :=
  match p with
  | EmptyString => -1
  | String a r =>
      let i := rfind c r in
      if (0 <=? i)%Z then (i + 1)%Z
      else if Ascii.eqb a c then 0%Z else (-1)%Z
  end.

(** [p[i:]] for [0 <= i]. *)
Definition str_from (i : Z) (p : string) : string :=
  substring (Z.to_nat i) (String.length p - Z.to_nat i) p.

(** [os.path.basename(p)] (posixpath): [i = p.rfind('/') + 1; return p[i:]]. *)
Definition basename (p : string) : string :=
  let i := (rfind "/" p + 1)%Z in
  str_from i p.

Definition startswith_slash (b : string) : bool :=
  match b with
  | String c _ => Ascii.eqb c "/"
  | EmptyString => false
  end.

(** [os.path.join(a, b)] (posixpath): an absolute [b] replaces [a]; a
    separator is inserted unless [a] is empty or already ends in one. *)
Definition os_path_join (a b : string) : string :=
  if startswith_slash b then b
  else if String.eqb a "" || endswith a "/" then a +:+ b
  else a +:+ "/" +:+ b.

(** [get_file_name_from_url] *)
Definition get_file_name_from_url (input_url : string) : string :=
  basename input_url.

(** ** The world *)

(** What a path names: a regular file with its contents, or a directory.
    The file system is keyed by the path strings the script uses. *)
Inductive fnode : Type :=
  | File (content : string)
  | Dir.

(** The options [setup_browser] hands to [webdriver.Chrome]. *)
Record chrome_options : Type := ChromeOptions {
  arguments : list string;
  prefs : list (string * pyval);
  capabilities : list (string * pyval)
}.

(** The calls the script makes on the operating system and on the driver,
    in the order they happen. *)
Inductive event : Type :=
  | EvMkdir (path : string)
  | EvMakedirs (path : string)
  | EvOpen (path : string)
  | EvLaunch (options : chrome_options)
  | EvGet (url : string)
  | EvGetLog
  | EvQuit.

(** Selenium's Chrome driver over a browser state [B].  Each call returns
    the next state or the exception it raises; a navigation also reports the
    files the browser saves while handling it, as (path, contents). *)
Class WebDriver (B : Type) : Type := {
  chrome_launch : chrome_options → B → result B;
  chrome_get : string → B → result (B * list (string * string));
  chrome_get_log : B → result (B * list pyval);
  chrome_quit : B → result B
}.

Record world (B : Type) : Type := World {
  fs : gmap string fnode;
  stdout : list string;
  trace : list event;
  chrome : B
}.
Arguments World {B} fs stdout trace chrome.
Arguments fs {B} w.
Arguments stdout {B} w.
Arguments trace {B} w.
Arguments chrome {B} w.

(** A computation of the script: from a world to the world it leaves and
    the value it returns or the exception that escapes it. *)
Definition M (B A : Type) : Type := world B → world B * result A.

#[global] Instance M_ret {B} : MRet (M B) := λ A a w, (w, Ok a).
#[global] Instance M_bind {B} : MBind (M B) := λ A C k m w,
  match m w with
  | (w', Ok a) => k a w'
  | (w', Raise e) => (w', Raise e)
  end.

Definition raise {B A} (e : pyexn) : M B A := λ w, (w, Raise e).

(** [print(line)].  The console takes every line: that it cannot encode a
    character of the line ([UnicodeEncodeError]) is outside the model. *)
Definition print {B} (line : string) : M B unit := λ w,
  (World (fs w) (stdout w ++ [line]) (trace w) (chrome w), Ok tt).

Definition emit {B} (ev : event) : M B unit := λ w,
  (World (fs w) (stdout w) (trace w ++ [ev]) (chrome w), Ok tt).

Definition get_fs {B} : M B (gmap string fnode) := λ w, (w, Ok (fs w)).

Definition put_fs {B} (m : gmap string fnode) : M B unit := λ w,
  (World m (stdout w) (trace w) (chrome w), Ok tt).

(** A browser saves a file under a path that is free; it never replaces
    what is there. *)
Definition save_download (m : gmap string fnode) (d : string * string)
  : gmap string fnode :=
  match m !! d.1 with
  | None => <[d.1 := File d.2]> m
  | Some _ => m
  end.

(** Run one driver call on the browser state. *)
Definition on_chrome {B A} (call : B → result (B * A)) : M B A := λ w,
  match call (chrome w) with
  | Ok (b, a) => (World (fs w) (stdout w) (trace w) b, Ok a)
  | Raise e => (w, Raise e)
  end.

(** ** File system calls

    A path is looked up as the string the script built.  Of the ways a call
    can fail, the ones that depend on what the path names are written out
    (it exists, it is missing, it is a directory); permissions, a missing
    parent directory and the like are outside the model. *)

Definition is_file (m : gmap string fnode) (p : string) : bool :=
  match m !! p with
  | Some (File _) => true
  | _ => false
  end.

Definition path_exists (m : gmap string fnode) (p : string) : bool :=
  match m !! p with
  | Some _ => true
  | None => false
  end.

(** [os.mkdir(path)] *)
Definition os_mkdir {B} (path : string) : M B unit :=
  emit (EvMkdir path);;
  m ← get_fs;
  if path_exists m path
  then raise (Exn FileExistsError ("[Errno 17] File exists: '" +:+ path +:+ "'"))
  else put_fs (<[path := Dir]> m).

(** [os.makedirs(name, exist_ok=True)]: [mkdir] of [name] (its parents are
    there: [main] calls it on the output directory, beside the script), whose
    [FileExistsError] is swallowed only when [name] is a directory. *)
Definition os_makedirs_exist_ok {B} (name : string) : M B unit :=
  emit (EvMakedirs name);;
  m ← get_fs;
  match m !! name with
  | None => put_fs (<[name := Dir]> m)
  | Some Dir => mret tt
  | Some (File _) =>
      raise (Exn FileExistsError ("[Errno 17] File exists: '" +:+ name +:+ "'"))
  end.

(** [create_directory_at_path] *)
Definition create_directory_at_path {B} (system_path : string) : M B unit :=
  os_mkdir system_path.

(** [check_directory_exists]: [os.path.exists] *)
Definition check_directory_exists {B} (system_path : string) : M B bool :=
  m ← get_fs; mret (path_exists m system_path).

(** [check_file_exists]: [os.path.isfile] *)
Definition check_file_exists {B} (system_path : string) : M B bool :=
  m ← get_fs; mret (is_file m system_path).

(** [read_a_file]: [open(..., "r")] then [read()].  The contents of a file
    are its text as stored: bytes that do not decode, and the reading of
    [\r\n] and [\r] as [\n], are outside the model. *)
Definition read_a_file {B} (system_path : string) : M B string :=
  emit (EvOpen system_path);;
  m ← get_fs;
  match m !! system_path with
  | Some (File content) => mret content
  | Some Dir =>
      raise (Exn IsADirectoryError
               ("[Errno 21] Is a directory: '" +:+ system_path +:+ "'"))
  | None =>
      raise (Exn FileNotFoundError
               ("[Errno 2] No such file or directory: '" +:+ system_path +:+ "'"))
  end.

(** ** The script *)

(** The two listing files of [main]. *)
Definition valid_urls_path : list string := ["page_1.json"; "page_2.json"].

Definition base_url : string :=
  "https://kik-sds.thewercs.com/MyDocuments/DownloadSingleFile?content=".

Section Script.

Context {B : Type} `{WebDriver B}.

(** [json.loads] *)
Variable json_loads : string → result pyval.

(** The directory that holds the script,
    [pathlib.Path(__file__).resolve().parent]: an absolute path. *)
Variable script_dir : string.

(** [str(script_dir / "PDFs")] *)
Definition output_directory : string := os_path_join script_dir "PDFs".

(** *** Driver calls

    The [driver] object the script passes around is the browser of the
    world; [driver.get], [driver.get_log("performance")] and [driver.quit]
    act on it. *)

Definition driver_get (url : string) : M B unit :=
  emit (EvGet url);;
  saved ← on_chrome (chrome_get url);
  m ← get_fs;
  put_fs (foldl save_download m saved).

Definition driver_get_log : M B (list pyval) :=
  emit EvGetLog;;
  on_chrome chrome_get_log.

Definition driver_quit : M B unit :=
  emit EvQuit;;
  on_chrome (λ b, b' ← chrome_quit b; Ok (b', tt)).

(** [setup_browser] *)
Definition setup_browser (download_dir : string) : M B unit :=
  os_makedirs_exist_ok download_dir;;
  let chrome_options :=
    ChromeOptions
      ["--disable-gpu"; "--no-sandbox"]
      [("download.default_directory", PStr download_dir);
       ("download.prompt_for_download", PBool false);
       ("plugins.always_open_pdf_externally", PBool true)]
      [("goog:loggingPrefs", PDict [("performance", PStr "ALL")])] in
  emit (EvLaunch chrome_options);;
  on_chrome (λ b, b' ← chrome_launch chrome_options b; Ok (b', tt)).

(** *** [get_http_status_code_from_browser] *)

(** [json.loads(s=v)]: the argument has to be text. *)
Definition json_loads_value (v : pyval) : result pyval :=
  match v with
  | PStr s => json_loads s
  | _ => Raise (Exn TypeError
                  ("the JSON object must be str, bytes or bytearray, not "
                   +:+ type_name v))
  end.

(** The body of the [try] for one log entry: [Some status] when it reaches
    [return response["status"]], [None] when it falls through. *)
Definition log_entry_status (log_entry : pyval) (target_url : string)
  : result (option pyval) :=
  text ← py_subscript log_entry "message";
  loaded ← json_loads_value text;
  message ← py_subscript loaded "message";
  method ← py_subscript message "method";
  if py_eq_str method "Network.responseReceived" then
    params ← py_subscript message "params";
    response ← py_subscript params "response";
    url ← py_subscript response "url";
    if py_eq_str url target_url then
      status ← py_subscript response "status";
      Ok (Some status)
    else Ok None
  else Ok None.

(** The [for] loop over the log: [except Exception: continue] skips an
    entry whose body raised; [None] after the last entry. *)
Fixpoint scan_logs (browser_logs : list pyval) (target_url : string) : pyval :=
  match browser_logs with
  | [] => PNone
  | log_entry :: rest =>
      match log_entry_status log_entry target_url with
      | Ok (Some status) => status
      | Ok None => scan_logs rest target_url
      | Raise _ => scan_logs rest target_url
      end
  end.

Definition get_http_status_code_from_browser (target_url : string)
  : M B pyval :=
  driver_get "about:blank";;
  driver_get target_url;;
  browser_logs ← driver_get_log;
  mret (scan_logs browser_logs target_url).

(** [download_pdf_if_valid] *)
Definition download_pdf_if_valid (pdf_url : string) : M B bool :=
  status_code ← get_http_status_code_from_browser pdf_url;
  if py_eq_num status_code 200 200%float then mret true else mret false.

(** *** [main] *)

(** The first loop of [main]: [false] when it printed the error and
    returned, [true] when every path is a file. *)
Fixpoint validate_inputs (paths : list string) : M B bool :=
  match paths with
  | [] => mret true
  | path :: rest =>
      found ← check_file_exists path;
      if (found : bool) then validate_inputs rest
      else print ("Error: " +:+ path +:+ " not found.");; mret false
  end.

(** The loop over the extracted URLs. *)
Fixpoint per_url_loop (pdf_ids : list string) : M B unit :=
  match pdf_ids with
  | [] => mret tt
  | pdf_url :: rest =>
      print ("Processing URL: " +:+ pdf_url);;
      let file_name := get_file_name_from_url pdf_url in
      let full_file_path := os_path_join output_directory file_name in
      present ← check_file_exists full_file_path;
      if (present : bool) then per_url_loop rest
      else download_pdf_if_valid pdf_url;; per_url_loop rest
  end.

(** [extract_pdf_urls] inside [main]: its prints go to the console. *)
Definition run_extract_pdf_urls (json_string base : string)
  : M B (list string) := λ w,
  let '(lines, r) := extract_pdf_urls json_loads json_string base in
  (World (fs w) (stdout w ++ lines) (trace w) (chrome w), r).

Definition main : M B unit :=
  inputs_ok ← validate_inputs valid_urls_path;
  if (inputs_ok : bool) then
    present ← check_directory_exists output_directory;
    (if (present : bool) then mret tt
     else create_directory_at_path output_directory);;
    setup_browser output_directory;;
    valid_urls_content_lines ← read_a_file (nth 0 valid_urls_path "");
    pdf_ids ← run_extract_pdf_urls
                (join_empty (str_chars valid_urls_content_lines)) base_url;
    per_url_loop pdf_ids;;
    driver_quit
  else mret tt.

End Script.

(** ** A small environment for running the script

    A decoder for the part of JSON the examples use (objects, arrays,
    strings with the one-character escapes, integers, [true], [false],
    [null]), and a browser that answers from a table of URLs.  The theorems
    below hold for every decoder and every browser; these two make the
    definitions run on concrete inputs. *)
Module Demo.

Definition dq : ascii := "034"%char.

(** JSON text written with single quotes in place of double quotes. *)
Fixpoint js (s : string) : string :=
  match s with
  | EmptyString => EmptyString
  | String c r => String (if Ascii.eqb c "'" then dq else c) (js r)
  end.

Definition is_ws (c : ascii) : bool :=
  Ascii.eqb c " " || Ascii.eqb c "009" || Ascii.eqb c "010"
  || Ascii.eqb c "013".

Fixpoint skip_ws (s : string) : string :=
  match s with
  | String c r => if is_ws c then skip_ws r else s
  | EmptyString => EmptyString
  end.

Definition is_digit (c : ascii) : bool :=
  (48 <=? nat_of_ascii c)%nat && (nat_of_ascii c <=? 57)%nat.

Fixpoint digits (s : string) (acc : Z) : Z * string :=
  match s with
  | String c r =>
      if is_digit c
      then digits r (10 * acc + (Z.of_nat (nat_of_ascii c) - 48))%Z
      else (acc, s)
  | EmptyString => (acc, EmptyString)
  end.

(** An integer; a fraction or an exponent after it is outside the part
    that is decoded. *)
Definition parse_int (s : string) : option (pyval * string) :=
  let '(neg, s1) :=
    match s with
    | String "-" r => (true, r)
    | _ => (false, s)
    end in
  match s1 with
  | String c r =>
      if is_digit c then
        let '(n, rest) := if Ascii.eqb c "0" then (0%Z, r) else digits s1 0 in
        match rest with
        | String "." _ | String "e" _ | String "E" _ => None
        | _ => Some (PInt (if neg then - n else n), rest)
        end
      else None
  | EmptyString => None
  end.

Definition unescape (c : ascii) : option ascii :=
  if Ascii.eqb c dq then Some dq
  else if Ascii.eqb c "\" then Some "\"%char
  else if Ascii.eqb c "/" then Some "/"%char
  else if Ascii.eqb c "n" then Some "010"%char
  else if Ascii.eqb c "t" then Some "009"%char
  else if Ascii.eqb c "r" then Some "013"%char
  else None.

(** The characters of a string literal, after its opening quote. *)
Fixpoint parse_string_chars (s : string) : option (string * string) :=
  match s with
  | EmptyString => None
  | String c r =>
      if Ascii.eqb c dq then Some (EmptyString, r)
      else if Ascii.eqb c "\" then
        match r with
        | String e r' =>
            match unescape e, parse_string_chars r' with
            | Some ch, Some (str, rest) => Some (String ch str, rest)
            | _, _ => None
            end
        | EmptyString => None
        end
      else if (nat_of_ascii c <? 32)%nat then None
      else
        match parse_string_chars r with
        | Some (str, rest) => Some (String c str, rest)
        | None => None
        end
  end.

Definition literal (word : string) (v : pyval) (s : string)
  : option (pyval * string) :=
  if String.prefix word s
  then Some (v, str_from (Z.of_nat (String.length word)) s)
  else None.

(** A repeated key keeps its first position and takes the last value. *)
Fixpoint dict_set (k : string) (v : pyval) (d : list (string * pyval))
  : list (string * pyval) :=
  match d with
  | [] => [(k, v)]
  | (k', v') :: d' =>
      if String.eqb k' k then (k, v) :: d' else (k', v') :: dict_set k v d'
  end.

Fixpoint parse_value (fuel : nat) (s : string) : option (pyval * string) :=
  match fuel with
  | O => None
  | S fuel' =>
      match skip_ws s with
      | String c r =>
          if Ascii.eqb c "[" then
            match skip_ws r with
            | String "]" r' => Some (PList [], r')
            | _ => parse_elems fuel' r []
            end
          else if Ascii.eqb c "{" then
            match skip_ws r with
            | String "}" r' => Some (PDict [], r')
            | _ => parse_members fuel' r []
            end
          else if Ascii.eqb c dq then
            match parse_string_chars r with
            | Some (str, rest) => Some (PStr str, rest)
            | None => None
            end
          else if Ascii.eqb c "n" then literal "null" PNone (String c r)
          else if Ascii.eqb c "t" then
            literal "true" (PBool true) (String c r)
          else if Ascii.eqb c "f" then
            literal "false" (PBool false) (String c r)
          else parse_int (String c r)
      | EmptyString => None
      end
  end
with parse_elems (fuel : nat) (s : string) (acc : list pyval)
  : option (pyval * string) :=
  match fuel with
  | O => None
  | S fuel' =>
      match parse_value fuel' s with
      | Some (v, r) =>
          match skip_ws r with
          | String "," r' => parse_elems fuel' r' (acc ++ [v])
          | String "]" r' => Some (PList (acc ++ [v]), r')
          | _ => None
          end
      | None => None
      end
  end
with parse_members (fuel : nat) (s : string) (acc : list (string * pyval))
  : option (pyval * string) :=
  match fuel with
  | O => None
  | S fuel' =>
      match skip_ws s with
      | String c r =>
          if Ascii.eqb c dq then
            match parse_string_chars r with
            | Some (k, r1) =>
                match skip_ws r1 with
                | String ":" r2 =>
                    match parse_value fuel' r2 with
                    | Some (v, r3) =>
                        match skip_ws r3 with
                        | String "," r4 =>
                            parse_members fuel' r4 (dict_set k v acc)
                        | String "}" r4 =>
                            Some (PDict (dict_set k v acc), r4)
                        | _ => None
                        end
                    | None => None
                    end
                | _ => None
                end
            | None => None
            end
          else None
      | EmptyString => None
      end
  end.

Definition json_loads (s : string) : result pyval :=
  match parse_value (2 * String.length s + 2) s with
  | Some (v, rest) =>
      match skip_ws rest with
      | EmptyString => Ok v
      | _ => Raise (Exn JSONDecodeError "Extra data")
      end
  | None => Raise (Exn JSONDecodeError "Expecting value")
  end.

(** The browser: the download directory it was launched with and the
    performance log it has buffered. *)
Record browser : Type := Browser { dl_dir : string; perf_log : list pyval }.

(** The log entry of a response, as Chrome's [Network.responseReceived]. *)
Definition response_entry (url status : string) : pyval :=
  PDict [("level", PStr "INFO");
         ("message",
          PStr (js ("{'message': {'method': 'Network.responseReceived', "
                    +:+ "'params': {'response': {'url': '" +:+ url
                    +:+ "', 'status': " +:+ status
                    +:+ "}}}, 'webview': 'A1'}")))].

(** [site url] is the status the server answers with, as JSON text, or
    [None] when the navigation fails.  A 200 saves the document under the
    last segment of its URL. *)
Definition driver (site : string → option string) : WebDriver browser := {|
  chrome_launch options b :=
    match dict_lookup "download.default_directory" (prefs options) with
    | Some (PStr d) => Ok (Browser d [])
    | _ => Raise (Exn WebDriverException "invalid argument")
    end;
  chrome_get url b :=
    if String.eqb url "about:blank" then Ok (b, [])
    else
      match site url with
      | Some status =>
          Ok (Browser (dl_dir b) (perf_log b ++ [response_entry url status]),
              if String.eqb status "200"
              then [(os_path_join (dl_dir b) (basename url), "%PDF-1.4")]
              else [])
      | None =>
          Raise (Exn WebDriverException
                   "unknown error: net::ERR_CONNECTION_REFUSED")
      end;
  chrome_get_log b := Ok (Browser (dl_dir b) [], perf_log b);
  chrome_quit b := Ok b
|}.

Definition initial_world (files : list (string * fnode)) : world browser :=
  World (list_to_map files) [] [] (Browser "" []).

(** A server that has [a_PDF], answers 404 for [c_PDF], and refuses the
    connection for every other URL. *)
Definition site (url : string) : option string :=
  if String.eqb url (base_url +:+ "/a_PDF") then Some "200"
  else if String.eqb url (base_url +:+ "/c_PDF") then Some "404"
  else None.

(** The listing of the specification's example. *)
Definition listing_abc : string :=
  js "{'data': {'Data': [['a_PDF'], ['b_TXT'], ['c_PDF']]}}".

(** A listing whose first document the server refuses. *)
Definition listing_xa : string :=
  js "{'data': {'Data': [['x_PDF', 'sheet'], ['a_PDF']]}}".

(** The script installed in [/srv/app], both listing files in place, no
    output directory yet. *)
Definition world_with (page_1 page_2 : string) : world browser :=
  initial_world [("page_1.json", File page_1); ("page_2.json", File page_2)].

(** A server that answers 404 for everything. *)
Definition site_404 (url : string) : option string := Some "404".

Definition url_a : string := base_url +:+ "/a_PDF".
Definition url_c : string := base_url +:+ "/c_PDF".
Definition url_x : string := base_url +:+ "/x_PDF".

(** [main] and its loop, run against [site] from [/srv/app]. *)
Definition run_main : M browser unit :=
  main (H := driver site) json_loads "/srv/app".

Definition run_loop (pdf_ids : list string) : M browser unit :=
  per_url_loop (H := driver site) json_loads "/srv/app" pdf_ids.

End Demo.

(** ** The helpers [main] does not call *)

(** *** [read_file_by_line] *)

(** [c.isspace()] for a character below 128: tab, line feed, vertical tab,
    form feed, carriage return, the four separators 28 to 31, and space. *)
Definition is_space (c : ascii) : bool :=
  let n := nat_of_ascii c in
  ((9 <=? n) && (n <=? 13) || (28 <=? n) && (n <=? 32))%nat.

(** [c.lower()] for a character below 128. *)
Definition lower_char (c : ascii) : ascii :=
  let n := nat_of_ascii c in
  if ((65 <=? n) && (n <=? 90))%nat then ascii_of_nat (n + 32) else c.

(** [s.lower()] *)
Fixpoint str_lower (s : string) : string :=
  match s with
  | EmptyString => EmptyString
  | String c r => String (lower_char c) (str_lower r)
  end.

(** [s.lstrip()] *)
Fixpoint str_lstrip (s : string) : string :=
  match s with
  | EmptyString => EmptyString
  | String c r => if is_space c then str_lstrip r else s
  end.

(** [s.rstrip()] *)
Fixpoint str_rstrip (s : string) : string :=
  match s with
  | EmptyString => EmptyString
  | String c r =>
      match str_rstrip r with
      | EmptyString => if is_space c then EmptyString else String c EmptyString
      | r' => String c r'
      end
  end.

(** [s.strip()]: whitespace is removed at both ends. *)
Definition str_strip (s : string) : string := str_rstrip (str_lstrip s).

Definition LF : ascii := "010"%char.
Definition CR : ascii := "013"%char.

(** What a file opened in text mode hands over ([newline=None]): every
    [\r\n] and every lone [\r] is read as [\n]. *)
Fixpoint universal_newlines (s : string) : string :=
  match s with
  | EmptyString => EmptyString
  | String c r =>
      if Ascii.eqb c CR then
        match r with
        | String c2 r2 =>
            if Ascii.eqb c2 LF then String LF (universal_newlines r2)
            else String LF (universal_newlines r)
        | EmptyString => String LF EmptyString
        end
      else String c (universal_newlines r)
  end.

(** The lines a [for] loop over a text file yields: each with its [\n],
    but for a last line that has none. *)
Fixpoint file_lines (s : string) : list string :=
  match s with
  | EmptyString => []
  | String c r =>
      if Ascii.eqb c LF then String LF EmptyString :: file_lines r
      else
        match file_lines r with
        | [] => [String c EmptyString]
        | line :: lines => String c line :: lines
        end
  end.

(** The loop of [read_file_by_line] over the raw lines. *)
Fixpoint non_empty_lines (raw_lines : list string) : list string :=
  match raw_lines with
  | [] => []
  | raw_line :: rest =>
      let stripped_line := str_lower (str_strip raw_line) in
      if String.eqb stripped_line "" then non_empty_lines rest
      else stripped_line :: non_empty_lines rest
  end.

(** The lines [read_file_by_line] returns for a file with this text. *)
Definition cleaned_lines (content : string) : list string :=
  non_empty_lines (file_lines (universal_newlines content)).

(** [read_file_by_line], for a file of characters below 128 (there
    [isspace] and [lower] are the two functions above, and decoding cannot
    fail). *)
Definition read_file_by_line {B} (file_name : string) : M B (list string) :=
  content ← read_a_file file_name;
  mret (cleaned_lines content).

(** *** [remove_duplicates_from_slice] *)

(** [list(set(provided_slice))]: the set as a finite set of strings, the
    list as its elements.  The order in which a set is iterated depends on
    the hashes of the strings and is not specified; the order of [elements]
    stands for it, and what is proved of the result does not depend on
    it. *)
Definition remove_duplicates_from_slice (provided_slice : list string)
  : list string :=
  elements (list_to_set provided_slice : gset string).

(** A text with spaces, capital letters, a Windows line end, an empty line
    and a last line without line end. *)
Definition demo_text : string :=
  "  Alpha.PDF " +:+ String CR (String LF (String LF " Beta")).


(** * Vocabulary of the properties *)

(** A row qualifies with identifier [ident]: it is a list whose first
    element is the string [ident], and [ident] ends with [_PDF]. *)
Definition qualifies (row : pyval) (ident : string) : Prop :=
  ∃ rest stem, row = PList (PStr ident :: rest) ∧ ident = stem +:+ "_PDF".

(** [selects rows ids]: [ids] are the identifiers of the qualifying rows of
    [rows], one per qualifying row, in the order of the rows. *)
Inductive selects : list pyval → list string → Prop :=
  | selects_nil : selects [] []
  | selects_keep row ident rows ids :
      qualifies row ident → selects rows ids →
      selects (row :: rows) (ident :: ids)
  | selects_skip row rows ids :
      (∀ ident, ¬ qualifies row ident) → selects rows ids →
      selects (row :: rows) ids.

(** The listing files are in place: every configured path is a regular
    file. *)
Definition inputs_present (m : gmap string fnode) : Prop :=
  Forall (λ path, is_file m path = true) valid_urls_path.



(** A computation keeps a relation between the world it starts in and the
    world it leaves, whatever it returns or raises. *)
Definition preserves {B A} (R : relation (world B)) (m : M B A) : Prop :=
  ∀ w, R w (m w).1.

(** The events added to the trace all satisfy [P]. *)
Definition trace_adds {B} (P : event → Prop) : relation (world B) :=
  λ w w', ∃ evs, trace w' = trace w ++ evs ∧ Forall P evs.

(** The lines added to the console all satisfy [P]. *)
Definition stdout_adds {B} (P : string → Prop) : relation (world B) :=
  λ w w', ∃ lines, stdout w' = stdout w ++ lines ∧ Forall P lines.

(** Every regular file is still there, with its contents. *)
Definition keeps_files {B} : relation (world B) :=
  λ w w', ∀ p c, fs w !! p = Some (File c) → fs w' !! p = Some (File c).


Definition is_quit (ev : event) : bool :=
  match ev with
  | EvQuit => true
  | _ => false
  end.

(** How many times [driver.quit] was invoked. *)
Definition quit_count (evs : list event) : nat :=
  length (filter (λ ev, is_quit ev = true) evs).

(** The status is 200: the integer, or a float that compares equal to it. *)
Definition equals_200 (status : pyval) : Prop :=
  status = PInt 200 ∨ ∃ f, status = PFloat f ∧ PrimFloat.eqb f 200%float = true.

Section StatusVocabulary.

Variable json_loads : string → result pyval.

(** A log entry reports [status] for [target_url]: its message decodes to a
    [Network.responseReceived] event whose response has exactly that URL and
    carries the status. *)
Definition reports (target_url : string) (log_entry status : pyval) : Prop :=
  ∃ text loaded message params response,
    py_subscript log_entry "message" = Ok (PStr text) ∧
    json_loads text = Ok loaded ∧
    py_subscript loaded "message" = Ok message ∧
    py_subscript message "method" = Ok (PStr "Network.responseReceived") ∧
    py_subscript message "params" = Ok params ∧
    py_subscript params "response" = Ok response ∧
    py_subscript response "url" = Ok (PStr target_url) ∧
    py_subscript response "status" = Ok status.

(** An entry that reports nothing for the URL: another event, another URL,
    or a record that is malformed or lacks a field. *)
Definition silent (target_url : string) (log_entry : pyval) : Prop :=
  ∀ status, ¬ reports target_url log_entry status.

(** [status] is what the first reporting entry of the log carries, or
    [None] when no entry reports. *)
Definition first_report (target_url : string) (browser_logs : list pyval)
    (status : pyval) : Prop :=
  (∃ before log_entry after,
     browser_logs = before ++ log_entry :: after ∧
     Forall (silent target_url) before ∧
     reports target_url log_entry status)
  ∨ (Forall (silent target_url) browser_logs ∧ status = PNone).

End StatusVocabulary.

(** Where the loop looks for the file of a URL: its derived name inside the
    output directory. *)
Definition download_path (script_dir pdf_url : string) : string :=
  os_path_join (output_directory script_dir) (get_file_name_from_url pdf_url).

(** The world after the progress line of a URL was printed. *)
Definition announced {B} (w : world B) (pdf_url : string) : world B :=
  World (fs w) (stdout w ++ ["Processing URL: " +:+ pdf_url]) (trace w)
    (chrome w).

(** No call of the driver raises. *)
Definition driver_never_raises {B} `{WebDriver B} : Prop :=
  (∀ url b, ∃ r, chrome_get url b = Ok r) ∧
  (∀ b, ∃ r, chrome_get_log b = Ok r).

(** How a run that got past the input check stands with [driver.quit]:
    if it returned, the quit is its last call and the only one; if an
    exception escaped, the quit was not invoked, unless it is the quit
    itself that raised. *)
Definition quit_outcome {B} `{WebDriver B} (evs : list event)
    (r : result unit) : Prop :=
  match r with
  | Ok _ => ∃ before, evs = before ++ [EvQuit] ∧ quit_count before = 0
  | Raise e =>
      quit_count evs = 0 ∨
      (quit_count evs = 1 ∧ ∃ b, chrome_quit b = Raise e)
  end.

Definition ends_in_quit {B} `{WebDriver B} (m : M B unit) : Prop :=
  ∀ w, ∃ evs, trace (m w).1 = trace w ++ evs ∧ quit_outcome evs (m w).2.

(** Two entries of a file system are of the same kind: both absent, both a
    directory, or both a regular file (of whatever contents). *)
Definition same_kind (n1 n2 : option fnode) : Prop :=
  match n1, n2 with
  | None, None => True
  | Some Dir, Some Dir => True
  | Some (File _), Some (File _) => True
  | _, _ => False
  end.

(** Two worlds that differ at most in the contents of the file [path]. *)
Definition agree_off {B} (path : string) (w1 w2 : world B) : Prop :=
  stdout w1 = stdout w2 ∧ trace w1 = trace w2 ∧ chrome w1 = chrome w2 ∧
  (∀ p, p ≠ path → fs w1 !! p = fs w2 !! p) ∧
  same_kind (fs w1 !! path) (fs w2 !! path).

(** A computation that cannot tell such worlds apart: it leaves them
    differing at most in that file, and returns or raises the same. *)
Definition blind_to {B A} (path : string) (m : M B A) : Prop :=
  ∀ w1 w2, agree_off path w1 w2 →
    agree_off path (m w1).1 (m w2).1 ∧ (m w1).2 = (m w2).2.

(** [extract_pdf_urls] recovered with a diagnostic: it printed one line and
    returned the empty list. *)
Definition recovers_with_diagnostic (json_loads : string → result pyval)
    (json_string base : string) : Prop :=
  ∃ line, extract_pdf_urls json_loads json_string base = ([line], Ok []).

(** The driver calls of one status fetch. *)
Definition fetch_calls (pdf_url : string) : list event :=
  [EvGet "about:blank"; EvGet pdf_url; EvGetLog].

(** Every entry of the file system, file or directory, is still there. *)
Definition keeps_entries {B} : relation (world B) :=
  λ w w', ∀ p node, fs w !! p = Some node → fs w' !! p = Some node.

(** The file system is the same everywhere but, possibly, at [path]. *)
Definition same_off {B} (path : string) : relation (world B) :=
  λ w w', ∀ p, p ≠ path → fs w' !! p = fs w !! p.

(** The browser saves no file while navigating. *)
Definition driver_saves_nothing {B} `{WebDriver B} : Prop :=
  ∀ url b b' saved, chrome_get url b = Ok (b', saved) → saved = [].

(** A text of characters below 128. *)
Fixpoint ascii_text (s : string) : Prop :=
  match s with
  | EmptyString => True
  | String c r => (nat_of_ascii c < 128)%nat ∧ ascii_text r
  end.

(** The characters of a string all satisfy [P]. *)
Fixpoint all_chars (P : ascii → bool) (s : string) : bool :=
  match s with
  | EmptyString => true
  | String c r => P c && all_chars P r
  end.

Definition first_char (s : string) : option ascii :=
  match s with
  | EmptyString => None
  | String c _ => Some c
  end.

Fixpoint last_char (s : string) : option ascii :=
  match s with
  | EmptyString => None
  | String c EmptyString => Some c
  | String _ r => last_char r
  end.

(** Neither [\n] nor [\r]. *)
Definition not_line_break (c : ascii) : bool :=
  negb (Ascii.eqb c LF) && negb (Ascii.eqb c CR).

Definition is_upper (c : ascii) : bool :=
  ((65 <=? nat_of_ascii c) && (nat_of_ascii c <=? 90))%nat.

(** A line as [read_file_by_line] returns it: not empty, no whitespace at
    either end, no capital letter, no line break inside. *)
Definition clean_line (line : string) : Prop :=
  line ≠ ""
  ∧ (∀ c, first_char line = Some c → is_space c = false)
  ∧ (∀ c, last_char line = Some c → is_space c = false)
  ∧ all_chars (λ c, negb (is_upper c)) line = true
  ∧ all_chars not_line_break line = true.

(** The text of a file that holds the given lines, each ended by [\n]. *)
Definition unlines (lines : list string) : string :=
  fold_right (λ line text, line +:+ String LF text) "" lines.

(** A raw line: a text without line break, with or without [\n] after
    it. *)
Definition raw_line_shape (raw_line : string) : Prop :=
  ∃ body, all_chars not_line_break body = true ∧
          (raw_line = body ∨ raw_line = body +:+ String LF "").

(** * Properties *)

(** ** Strings *)

Lemma string_app_cons (c : ascii) (s t : string) :
  String c s +:+ t = String c (s +:+ t).
Proof. reflexivity. Qed.

Lemma string_app_nil_l (t : string) : "" +:+ t = t.
Proof. reflexivity. Qed.

Lemma string_length_app (s t : string) :
  String.length (s +:+ t) = String.length s + String.length t.
Proof.
  induction s as [|c s IH]; [done|].
  rewrite string_app_cons. simpl. by rewrite IH.
Qed.

Lemma string_app_nil_r (s : string) : s +:+ "" = s.
Proof.
  induction s as [|c s IH]; [done|]. by rewrite string_app_cons, IH.
Qed.

Lemma substring_all (s : string) : substring 0 (String.length s) s = s.
Proof. induction s as [|c s IH]; simpl; [done | by rewrite IH]. Qed.

Lemma substring_skip_app (p q : string) (m : nat) :
  substring (String.length p) m (p +:+ q) = substring 0 m q.
Proof.
  induction p as [|c p IH]; [done|]. rewrite string_app_cons. simpl. apply IH.
Qed.

(** A string splits at every position up to its length. *)
Lemma substring_split (s : string) (n : nat) :
  (n ≤ String.length s)%nat →
  s = substring 0 n s +:+ substring n (String.length s - n) s.
Proof.
  revert n. induction s as [|c s IH]; intros [|n] Hn; simpl in *; try lia.
  - done.
  - by rewrite string_app_nil_l, substring_all.
  - rewrite string_app_cons. f_equal. apply IH. lia.
Qed.

(** [endswith] is "the string is something followed by the suffix". *)
Lemma endswith_spec (s suffix : string) :
  endswith s suffix = true ↔ ∃ stem, s = stem +:+ suffix.
Proof.
  unfold endswith. rewrite andb_true_iff, Nat.leb_le, String.eqb_eq. split.
  - intros [Hle Hsub].
    exists (substring 0 (String.length s - String.length suffix) s).
    pose proof (substring_split s (String.length s - String.length suffix))
      as Hs.
    replace (String.length s - (String.length s - String.length suffix))
      with (String.length suffix) in Hs by lia.
    rewrite Hsub in Hs. apply Hs. lia.
  - intros [stem ->]. rewrite string_length_app. split; [lia|].
    replace (String.length stem + String.length suffix - String.length suffix)
      with (String.length stem) by lia.
    rewrite substring_skip_app. apply substring_all.
Qed.


(** ** Paths *)

Lemma rfind_range (c : ascii) (p : string) :
  (-1 ≤ rfind c p < Z.of_nat (String.length p))%Z.
Proof.
  induction p as [|a r IH]; simpl; [lia|].
  destruct (0 <=? rfind c r)%Z eqn:E; [lia|].
  destruct (Ascii.eqb a c); lia.
Qed.

Lemma str_from_0 (p : string) : str_from 0 p = p.
Proof. unfold str_from. simpl. rewrite Nat.sub_0_r. apply substring_all. Qed.

Lemma str_from_cons (i : Z) (a : ascii) (r : string) :
  (0 ≤ i)%Z → str_from (i + 1) (String a r) = str_from i r.
Proof.
  intros Hi. unfold str_from.
  replace (Z.to_nat (i + 1)) with (S (Z.to_nat i)) by lia. done.
Qed.

(** [basename], one character at a time. *)
Lemma basename_cons (a : ascii) (r : string) :
  basename (String a r) =
  if (0 <=? rfind "/" r)%Z then basename r
  else if Ascii.eqb a "/" then r else String a r.
Proof.
  unfold basename. simpl.
  pose proof (rfind_range "/" r) as Hr.
  destruct (0 <=? rfind "/" r)%Z eqn:E.
  - apply Z.leb_le in E. apply str_from_cons. lia.
  - destruct (Ascii.eqb a "/").
    + rewrite (str_from_cons 0) by lia. apply str_from_0.
    + apply str_from_0.
Qed.

(** The derived name is the text after the last ['/']: it has no ['/'], and
    what stands before it is empty or ends with ['/']. *)
Lemma basename_spec (p : string) :
  ∃ prefix,
    p = prefix +:+ basename p ∧
    rfind "/" (basename p) = (-1)%Z ∧
    (prefix = "" ∨ endswith prefix "/" = true).
Proof.
  induction p as [|a r (prefix & Heq & Hno & Hpre)].
  - exists "". split; [done|]. split; [done|]. by left.
  - rewrite basename_cons. destruct (0 <=? rfind "/" r)%Z eqn:E.
    + exists (String a prefix). rewrite string_app_cons, <- Heq.
      split; [done|]. split; [done|]. right.
      destruct Hpre as [->|Hpre].
      * rewrite string_app_nil_l in Heq. rewrite <- Heq in Hno.
        apply Z.leb_le in E. lia.
      * apply endswith_spec in Hpre as [stem ->].
        apply endswith_spec. exists (String a stem). done.
    + apply Z.leb_gt in E.
      assert (rfind "/" r = (-1)%Z) as Hr
        by (pose proof (rfind_range "/" r); lia).
      destruct (Ascii.eqb a "/") eqn:Ea.
      * apply Ascii.eqb_eq in Ea as ->. exists "/".
        split; [done|]. split; [done|]. by right.
      * exists "". split; [done|]. split; [|by left].
        simpl. rewrite Hr. simpl. by rewrite Ea.
Qed.

(** The derived name of [prefix/name] is [name], when [name] has no ['/']. *)
Lemma basename_app_slash (prefix name : string) :
  rfind "/" name = (-1)%Z → basename (prefix +:+ "/" +:+ name) = name.
Proof.
  intros Hname.
  assert (∀ q, (0 ≤ rfind "/" (q +:+ "/" +:+ name))%Z) as Hpos.
  { induction q as [|a q IH].
    - rewrite string_app_nil_l. change ("/" +:+ name) with (String "/" name).
      simpl. rewrite Hname. simpl. lia.
    - rewrite string_app_cons. simpl.
      destruct (0 <=? rfind "/" (q +:+ "/" +:+ name))%Z eqn:E; lia. }
  induction prefix as [|a q IH].
  - rewrite string_app_nil_l. change ("/" +:+ name) with (String "/" name).
    rewrite basename_cons, Hname. done.
  - rewrite string_app_cons, basename_cons.
    pose proof (Hpos q) as Hq. apply Z.leb_le in Hq. by rewrite Hq.
Qed.

(** ** The record extractor *)

Lemma qualifies_functional row i1 i2 :
  qualifies row i1 → qualifies row i2 → i1 = i2.
Proof. intros (? & ? & -> & _) (? & ? & [= ->] & _). done. Qed.

(** The relation determines the identifiers: nothing is dropped, repeated
    or reordered. *)
Lemma selects_functional rows ids1 ids2 :
  selects rows ids1 → selects rows ids2 → ids1 = ids2.
Proof.
  intros H1. revert ids2.
  induction H1 as [|row i rows ids Hq _ IH|row rows ids Hn _ IH];
    intros ids2 H2; inversion H2 as [|? ? ? ? Hq2 Hs2|? ? ? Hn2 Hs2]; subst.
  - done.
  - f_equal; [by eapply qualifies_functional | by apply IH].
  - exfalso. by eapply Hn2.
  - exfalso. by eapply Hn.
  - by apply IH.
Qed.

Lemma pdf_id_of_row_some row ident :
  pdf_id_of_row row = Ok (Some ident) → qualifies row ident.
Proof.
  destruct row as [| | | | |[|x l]|]; simpl; try done.
  destruct x; simpl; try done.
  destruct (endswith s "_PDF") eqn:He; intros [= <-].
  apply endswith_spec in He as [stem ->]. by exists l, stem.
Qed.

Lemma pdf_id_of_row_none row ident :
  pdf_id_of_row row = Ok None → ¬ qualifies row ident.
Proof.
  intros Hrow (rest & stem & -> & ->). simpl in Hrow.
  assert (endswith (stem +:+ "_PDF") "_PDF" = true) as He
    by (apply endswith_spec; eauto).
  rewrite He in Hrow. done.
Qed.

Lemma pdf_ids_of_selects rows ids :
  pdf_ids_of rows = Ok ids → selects rows ids.
Proof.
  revert ids. induction rows as [|row rows IH]; simpl; intros ids.
  - intros [= <-]. constructor.
  - destruct (pdf_id_of_row row) as [keep|] eqn:Hrow; simpl; [|done].
    destruct (pdf_ids_of rows) as [ids'|]; simpl; [|done].
    destruct keep as [ident|]; intros [= <-].
    + apply selects_keep; [by apply pdf_id_of_row_some | by apply IH].
    + apply selects_skip; [intros i; by apply pdf_id_of_row_none | by apply IH].
Qed.

(** Only [row[0]] on an empty row can raise inside the comprehension. *)
Lemma pdf_ids_of_raise rows e :
  pdf_ids_of rows = Raise e → exn_cls e = IndexError ∧ PList [] ∈ rows.
Proof.
  induction rows as [|row rows IH]; simpl; [done|].
  destruct (pdf_id_of_row row) as [keep|e'] eqn:Hrow; simpl.
  - destruct (pdf_ids_of rows) as [ids'|e']; simpl; [done|].
    intros [= <-]. destruct IH as [? ?]; [done|]. split; [done|by right].
  - intros [= <-].
    destruct row as [| | | | |[|x l]|]; simpl in Hrow; try done.
    + injection Hrow as <-. split; [done|left].
    + destruct x; done.
Qed.

(** The comprehension raises only on an empty row. *)
Lemma pdf_ids_of_total rows :
  PList [] ∉ rows → ∃ ids, pdf_ids_of rows = Ok ids.
Proof.
  induction rows as [|row rows IH]; simpl; intros Hno; [eauto|].
  destruct IH as [ids ->]; [set_solver|].
  destruct row as [| | | | |[|x l]|]; simpl; eauto.
  - set_solver.
  - destruct x; simpl; eauto.
Qed.

Section ExtractorFacts.

Variable json_loads : string → result pyval.

(** C1. Whenever [extract_pdf_urls] returns, every URL it returns is
    [base_url/ident] for an identifier [ident] that is the first element
    of a row of the listing and ends with [_PDF]; and when the listing has
    rows, the URLs are those of its qualifying rows, one for each, in row
    order, while no rows means no URLs. *)
Theorem extract_pdf_urls_only_pdf_rows_in_order
    (json_string base : string) (out urls : list string) :
  extract_pdf_urls json_loads json_string base = (out, Ok urls) →
  Forall (λ u, ∃ row ident,
            u = base +:+ "/" +:+ ident ∧ qualifies row ident ∧
            ∃ rows, listing_rows json_loads json_string = Ok rows ∧
                    row ∈ rows) urls
  ∧ (∀ rows, listing_rows json_loads json_string = Ok rows →
       ∃ ids, selects rows ids ∧
              urls = map (λ ident, base +:+ "/" +:+ ident) ids)
  ∧ (∀ e, listing_rows json_loads json_string = Raise e → urls = []).
Proof.
  unfold extract_pdf_urls, extract_pdf_urls_try.
  destruct (listing_rows json_loads json_string) as [rows|e] eqn:Hrows;
    simpl.
  - destruct (pdf_ids_of rows) as [ids|e] eqn:Hids; simpl.
    + intros [= <- <-].
      apply pdf_ids_of_selects in Hids.
      split; [|split; [|done]].
      * apply Forall_forall. intros u [ident [-> Hin]]%list_elem_of_fmap.
        assert (∃ row, row ∈ rows ∧ qualifies row ident) as (row & ? & ?).
        { clear -Hids Hin. induction Hids; [set_solver| |].
          - apply elem_of_cons in Hin as [->|Hin].
            + eexists; split; [left|done].
            + destruct (IHHids Hin) as (r & ? & ?).
              exists r; split; [by right|done].
          - destruct (IHHids Hin) as (r & ? & ?).
            exists r; split; [by right|done]. }
        exists row, ident. eauto 6.
      * intros rows' [= <-]. eauto.
    + destruct (caught_by_extract (exn_cls e)) eqn:Hc; intros [= <- <-].
      all: apply pdf_ids_of_raise in Hids as [Hcls _]; by rewrite Hcls in *.
  - destruct (caught_by_extract (exn_cls e)); intros [= <- <-].
    split; [constructor|]. split; [done|done].
Qed.

End ExtractorFacts.

(** ** Running computations *)

Lemma bind_run {B A C} (m : M B A) (k : A → M B C) (w : world B) :
  (m ≫= k) w =
  match m w with
  | (w', Ok a) => k a w'
  | (w', Raise e) => (w', Raise e)
  end.
Proof. reflexivity. Qed.

Lemma bind_ok {B A C} (m : M B A) (k : A → M B C) w w' a :
  m w = (w', Ok a) → (m ≫= k) w = k a w'.
Proof. intros Hm. by rewrite bind_run, Hm. Qed.

Lemma bind_raise {B A C} (m : M B A) (k : A → M B C) w w' e :
  m w = (w', Raise e) → (m ≫= k) w = (w', Raise e).
Proof. intros Hm. by rewrite bind_run, Hm. Qed.

Ltac run_binds := repeat (rewrite bind_run; simpl).

(** A sequence returns only if its first part returned. *)
Lemma bind_inv_ok {B A C} (m : M B A) (k : A → M B C) w w' c :
  (m ≫= k) w = (w', Ok c) →
  ∃ w1 a, m w = (w1, Ok a) ∧ k a w1 = (w', Ok c).
Proof.
  rewrite bind_run. destruct (m w) as [w1 [a|e]]; [eauto | done].
Qed.

Lemma preserves_ret {B A} (R : relation (world B)) `{!Reflexive R} (a : A) :
  preserves R (mret a).
Proof. intros w. simpl. reflexivity. Qed.

Lemma preserves_raise {B A} (R : relation (world B)) `{!Reflexive R} e :
  preserves R (raise (A:=A) e).
Proof. intros w. simpl. reflexivity. Qed.

Lemma preserves_bind {B A C} (R : relation (world B)) `{!Transitive R}
    (m : M B A) (k : A → M B C) :
  preserves R m → (∀ a, preserves R (k a)) → preserves R (m ≫= k).
Proof.
  intros Hm Hk w. rewrite bind_run. specialize (Hm w).
  destruct (m w) as [w1 [a|e]]; simpl in *; [|done].
  etrans; [exact Hm | apply Hk].
Qed.

#[global] Instance trace_adds_preorder {B} (P : event → Prop) :
  PreOrder (@trace_adds B P).
Proof.
  split.
  - intros w. exists []. by rewrite app_nil_r.
  - intros w1 w2 w3 (e1 & E1 & ?) (e2 & E2 & ?).
    exists (e1 ++ e2). rewrite E2, E1, app_assoc.
    split; [done | by apply Forall_app].
Qed.

#[global] Instance stdout_adds_preorder {B} (P : string → Prop) :
  PreOrder (@stdout_adds B P).
Proof.
  split.
  - intros w. exists []. by rewrite app_nil_r.
  - intros w1 w2 w3 (l1 & E1 & ?) (l2 & E2 & ?).
    exists (l1 ++ l2). rewrite E2, E1, app_assoc.
    split; [done | by apply Forall_app].
Qed.

#[global] Instance keeps_files_preorder {B} : PreOrder (@keeps_files B).
Proof. split; [by intros w p c | intros w1 w2 w3 H1 H2 p c ?; eauto]. Qed.

(** What is saved never replaces a file. *)
Lemma save_download_keeps m d p c :
  m !! p = Some (File c) → save_download m d !! p = Some (File c).
Proof.
  intros Hp. unfold save_download. destruct (m !! d.1) eqn:Hd; [done|].
  rewrite lookup_insert_ne; [done|]. intros Heq. rewrite Heq in Hd. congruence.
Qed.

Lemma foldl_save_download_keeps saved m p c :
  m !! p = Some (File c) → foldl save_download m saved !! p = Some (File c).
Proof.
  revert m. induction saved as [|d saved IH]; simpl; [done|].
  intros m Hp. apply IH. by apply save_download_keeps.
Qed.

Section ScriptFacts.

Context {B : Type} `{WebDriver B}.
Variable json_loads : string → result pyval.
Variable script_dir : string.

Local Abbreviation main := (main json_loads script_dir).
Local Abbreviation per_url_loop := (per_url_loop json_loads script_dir).
Local Abbreviation output_directory := (output_directory script_dir).
Local Abbreviation download_pdf_if_valid := (download_pdf_if_valid json_loads).
Local Abbreviation get_http_status_code_from_browser :=
  (get_http_status_code_from_browser json_loads).

(** *** The trace of each call *)

Lemma print_trace P line : preserves (trace_adds (B:=B) P) (print line).
Proof. intros w. exists []. simpl. by rewrite app_nil_r. Qed.

Lemma emit_trace (P : event → Prop) ev :
  P ev → preserves (trace_adds (B:=B) P) (emit ev).
Proof. intros Hev w. exists [ev]. simpl. split; [done | by constructor]. Qed.

Lemma get_fs_trace P : preserves (trace_adds (B:=B) P) get_fs.
Proof. intros w. simpl. reflexivity. Qed.

Lemma put_fs_trace P m : preserves (trace_adds (B:=B) P) (put_fs m).
Proof. intros w. exists []. simpl. by rewrite app_nil_r. Qed.

Lemma on_chrome_trace {A} P (call : B → result (B * A)) :
  preserves (trace_adds (B:=B) P) (on_chrome call).
Proof.
  intros w. unfold on_chrome. destruct (call (chrome w)) as [[b a]|e]; simpl.
  - exists []. by rewrite app_nil_r.
  - reflexivity.
Qed.


Lemma emit_stdout P ev : preserves (stdout_adds (B:=B) P) (emit ev).
Proof. intros w. exists []. simpl. by rewrite app_nil_r. Qed.

Lemma get_fs_stdout P : preserves (stdout_adds (B:=B) P) get_fs.
Proof. intros w. simpl. reflexivity. Qed.

Lemma put_fs_stdout P m : preserves (stdout_adds (B:=B) P) (put_fs m).
Proof. intros w. exists []. simpl. by rewrite app_nil_r. Qed.

Lemma on_chrome_stdout {A} P (call : B → result (B * A)) :
  preserves (stdout_adds (B:=B) P) (on_chrome call).
Proof.
  intros w. unfold on_chrome. destruct (call (chrome w)) as [[b a]|e]; simpl.
  - exists []. by rewrite app_nil_r.
  - reflexivity.
Qed.

Lemma print_files line : preserves (keeps_files (B:=B)) (print line).
Proof. by intros w p c. Qed.

Lemma emit_files ev : preserves (keeps_files (B:=B)) (emit ev).
Proof. by intros w p c. Qed.

Lemma get_fs_files : preserves (keeps_files (B:=B)) get_fs.
Proof. by intros w p c. Qed.

Lemma on_chrome_files {A} (call : B → result (B * A)) :
  preserves (keeps_files (B:=B)) (on_chrome call).
Proof.
  intros w p c. unfold on_chrome.
  by destruct (call (chrome w)) as [[b a]|e].
Qed.

(** Split a goal about a composed computation into its calls. *)
Ltac preserves_steps :=
  repeat match goal with
    | |- preserves _ (mret _) => apply preserves_ret; tc_solve
    | |- preserves _ (raise _) => apply preserves_raise; tc_solve
    | |- preserves (trace_adds _) (print _) => apply print_trace
    | |- preserves (trace_adds _) get_fs => apply get_fs_trace
    | |- preserves (trace_adds _) (put_fs _) => apply put_fs_trace
    | |- preserves (trace_adds _) (on_chrome _) => apply on_chrome_trace
    | |- preserves keeps_files (print _) => apply print_files
    | |- preserves keeps_files (emit _) => apply emit_files
    | |- preserves keeps_files get_fs => apply get_fs_files
    | |- preserves keeps_files (on_chrome _) => apply on_chrome_files
    | |- preserves (stdout_adds _) (emit _) => apply emit_stdout
    | |- preserves (stdout_adds _) get_fs => apply get_fs_stdout
    | |- preserves (stdout_adds _) (put_fs _) => apply put_fs_stdout
    | |- preserves (stdout_adds _) (on_chrome _) => apply on_chrome_stdout
    | |- preserves _ (_ ≫= _) => apply preserves_bind; [tc_solve | | intros ?]
    | |- preserves _ (if ?b then _ else _) => destruct b
    | |- preserves _ (match ?x with _ => _ end) => destruct x
    end.

Lemma os_mkdir_trace (P : event → Prop) path :
  P (EvMkdir path) → preserves (trace_adds (B:=B) P) (os_mkdir path).
Proof. intros. unfold os_mkdir. preserves_steps. by apply emit_trace. Qed.

Lemma os_makedirs_trace (P : event → Prop) name :
  P (EvMakedirs name) →
  preserves (trace_adds (B:=B) P) (os_makedirs_exist_ok name).
Proof.
  intros. unfold os_makedirs_exist_ok. preserves_steps. by apply emit_trace.
Qed.

Lemma check_file_exists_trace P path :
  preserves (trace_adds (B:=B) P) (check_file_exists path).
Proof. unfold check_file_exists. preserves_steps. Qed.

Lemma check_directory_exists_trace P path :
  preserves (trace_adds (B:=B) P) (check_directory_exists path).
Proof. unfold check_directory_exists. preserves_steps. Qed.

Lemma read_a_file_trace (P : event → Prop) path :
  P (EvOpen path) → preserves (trace_adds (B:=B) P) (read_a_file path).
Proof. intros. unfold read_a_file. preserves_steps. by apply emit_trace. Qed.

Lemma driver_get_trace (P : event → Prop) url :
  P (EvGet url) → preserves (trace_adds P) (driver_get url).
Proof. intros. unfold driver_get. preserves_steps. by apply emit_trace. Qed.

Lemma driver_get_log_trace (P : event → Prop) :
  P EvGetLog → preserves (trace_adds P) driver_get_log.
Proof. intros. unfold driver_get_log. preserves_steps. by apply emit_trace. Qed.

Lemma setup_browser_trace (P : event → Prop) dir :
  P (EvMakedirs dir) → (∀ options, P (EvLaunch options)) →
  preserves (trace_adds P) (setup_browser dir).
Proof.
  intros. unfold setup_browser. preserves_steps.
  - by apply os_makedirs_trace.
  - by apply emit_trace.
Qed.

Lemma get_http_status_trace (P : event → Prop) url :
  P (EvGet "about:blank") → P (EvGet url) → P EvGetLog →
  preserves (trace_adds P) (get_http_status_code_from_browser url).
Proof.
  intros. unfold get_http_status_code_from_browser. preserves_steps.
  - by apply driver_get_trace.
  - by apply driver_get_trace.
  - by apply driver_get_log_trace.
Qed.

Lemma download_trace (P : event → Prop) url :
  P (EvGet "about:blank") → P (EvGet url) → P EvGetLog →
  preserves (trace_adds P) (download_pdf_if_valid url).
Proof.
  intros. unfold download_pdf_if_valid. preserves_steps.
  by apply get_http_status_trace.
Qed.

Lemma per_url_loop_trace (P : event → Prop) pdf_ids :
  P (EvGet "about:blank") → P EvGetLog →
  (∀ url, url ∈ pdf_ids → P (EvGet url)) →
  preserves (trace_adds P) (per_url_loop pdf_ids).
Proof.
  intros Hblank Hlog. induction pdf_ids as [|url rest IH]; intros Hurls; simpl.
  - preserves_steps.
  - preserves_steps.
    + apply check_file_exists_trace.
    + apply IH. intros; apply Hurls; by right.
    + apply download_trace; [done| |done]. apply Hurls; left.
    + apply IH. intros; apply Hurls; by right.
Qed.

Lemma validate_inputs_trace P paths :
  preserves (trace_adds (B:=B) P) (validate_inputs paths).
Proof.
  induction paths as [|path rest IH]; simpl; preserves_steps.
  - apply check_file_exists_trace.
  - done.
Qed.

Lemma run_extract_trace P json_string base :
  preserves (trace_adds (B:=B) P)
    (run_extract_pdf_urls json_loads json_string base).
Proof.
  intros w. unfold run_extract_pdf_urls.
  destruct (extract_pdf_urls _ _ _) as [lines r]. simpl.
  exists []. by rewrite app_nil_r.
Qed.

(** *** The console of each call *)







(** *** The input check *)

Lemma check_file_exists_run path (w : world B) :
  check_file_exists path w = (w, Ok (is_file (fs w) path)).
Proof. reflexivity. Qed.

Lemma validate_inputs_present paths (w : world B) :
  Forall (λ p, is_file (fs w) p = true) paths →
  validate_inputs paths w = (w, Ok true).
Proof.
  induction 1 as [|path rest Hp _ IH]; simpl; [done|].
  rewrite bind_run, check_file_exists_run, Hp. exact IH.
Qed.




(** *** The output directory *)

Lemma os_makedirs_on_file name (w : world B) content :
  fs w !! name = Some (File content) →
  os_makedirs_exist_ok name w =
  (World (fs w) (stdout w) (trace w ++ [EvMakedirs name]) (chrome w),
   Raise (Exn FileExistsError ("[Errno 17] File exists: '" +:+ name +:+ "'"))).
Proof.
  intros Hfile. unfold os_makedirs_exist_ok. run_binds. by rewrite Hfile.
Qed.

(** C10. [check_directory_exists] answers true for every path that exists,
    a regular file as well as a directory, and false only for a path that
    is missing.  So when the inputs are in place and a regular
    file occupies the output path, [main] does not call
    [create_directory_at_path]: its only call is the [os.makedirs] of
    [setup_browser], which raises [FileExistsError] because the path is not
    a directory, before any browser is launched. *)
Theorem file_at_output_path_raises_in_setup :
  (∀ (w : world B) (path : string),
     check_directory_exists path w
     = (w, Ok match fs w !! path with
              | Some (File _) => true
              | Some Dir => true
              | None => false
              end))
  ∧ (∀ (w : world B) (content : string),
       inputs_present (fs w) →
       fs w !! output_directory = Some (File content) →
       check_directory_exists output_directory w = (w, Ok true)
       ∧ main w =
         (World (fs w) (stdout w) (trace w ++ [EvMakedirs output_directory])
            (chrome w),
          Raise (Exn FileExistsError
                   ("[Errno 17] File exists: '" +:+ output_directory
                    +:+ "'")))).
Proof.
  assert (∀ (w : world B) (path : string),
            check_directory_exists path w
            = (w, Ok match fs w !! path with
                     | Some (File _) => true
                     | Some Dir => true
                     | None => false
                     end)) as Hexists.
  { intros w path. unfold check_directory_exists. rewrite bind_run. simpl.
    unfold path_exists. by destruct (fs w !! path) as [[|]|]. }
  split; [exact Hexists|].
  intros w content Hall Hfile.
  assert (check_directory_exists output_directory w = (w, Ok true)) as Hchk
    by (by rewrite Hexists, Hfile).
  split; [done|].
  pose proof (validate_inputs_present _ w Hall) as Hv.
  unfold main. rewrite (bind_ok _ _ _ _ _ Hv).
  rewrite (bind_ok _ _ _ _ _ Hchk).
  rewrite bind_run. simpl.
  apply bind_raise. unfold setup_browser.
  apply bind_raise. by eapply os_makedirs_on_file.
Qed.

(** *** The status of a response *)

Lemma py_eq_str_true v s : py_eq_str v s = true ↔ v = PStr s.
Proof.
  destruct v; simpl; try (split; [done | intros [=]]).
  rewrite String.eqb_eq. split; [by intros -> | by intros [= ->]].
Qed.

Lemma py_eq_num_200 status :
  py_eq_num status 200 200%float = true ↔ equals_200 status.
Proof.
  unfold equals_200. destruct status as [|[]| | | | |]; simpl;
    try (split; [done | intros [[=]|(f' & [=] & _)]]).
  - rewrite Z.eqb_eq. split; [intros ->; by left|].
    intros [[= ->]|(f' & [=] & _)]. done.
  - split; [intros Hf; right; by exists f|].
    intros [[=]|(f' & [= <-] & Hf)]. done.
Qed.

Lemma log_entry_status_reports log_entry target_url status :
  log_entry_status json_loads log_entry target_url = Ok (Some status) ↔
  reports json_loads target_url log_entry status.
Proof.
  unfold log_entry_status, reports. split.
  - destruct (py_subscript log_entry "message") as [text|] eqn:E1;
      simpl; [|done].
    destruct text as [| | | |text| |]; simpl; try done.
    destruct (json_loads text) as [loaded|] eqn:E2; simpl; [|done].
    destruct (py_subscript loaded "message") as [message|] eqn:E3;
      simpl; [|done].
    destruct (py_subscript message "method") as [method|] eqn:E4;
      simpl; [|done].
    destruct (py_eq_str method _) eqn:E5; [|done].
    apply py_eq_str_true in E5 as ->.
    destruct (py_subscript message "params") as [params|] eqn:E6;
      simpl; [|done].
    destruct (py_subscript params "response") as [response|] eqn:E7;
      simpl; [|done].
    destruct (py_subscript response "url") as [url|] eqn:E8; simpl; [|done].
    destruct (py_eq_str url target_url) eqn:E9; [|done].
    apply py_eq_str_true in E9 as ->.
    destruct (py_subscript response "status") as [st|] eqn:E10;
      simpl; [|done].
    intros [= <-]. by exists text, loaded, message, params, response.
  - intros (text & loaded & message & params & response &
            E1 & E2 & E3 & E4 & E5 & E6 & E7 & E8).
    rewrite E1. simpl. rewrite E2. simpl. rewrite E3. simpl.
    rewrite E4. simpl. rewrite E5. simpl. rewrite E6. simpl.
    rewrite E7. simpl. rewrite String.eqb_refl. by rewrite E8.
Qed.

Lemma reports_functional target_url log_entry s1 s2 :
  reports json_loads target_url log_entry s1 →
  reports json_loads target_url log_entry s2 → s1 = s2.
Proof.
  intros H1%log_entry_status_reports H2%log_entry_status_reports.
  congruence.
Qed.

Lemma scan_logs_silent log_entry rest target_url :
  silent json_loads target_url log_entry →
  scan_logs json_loads (log_entry :: rest) target_url =
  scan_logs json_loads rest target_url.
Proof.
  intros Hsilent. simpl.
  destruct (log_entry_status json_loads log_entry target_url)
    as [[status|]|] eqn:E; try done.
  apply log_entry_status_reports in E. by apply Hsilent in E.
Qed.

Lemma scan_logs_first_report browser_logs target_url :
  first_report json_loads target_url browser_logs
    (scan_logs json_loads browser_logs target_url).
Proof.
  induction browser_logs as [|log_entry rest IH].
  - right. by split.
  - destruct (log_entry_status json_loads log_entry target_url)
      as [[status|]|] eqn:E.
    { left. exists [], log_entry, rest. simpl. rewrite E.
      split; [done|]. split; [constructor|].
      by apply log_entry_status_reports. }
    all: assert (silent json_loads target_url log_entry) as Hs
      by (intros st Hr%log_entry_status_reports; congruence).
    all: rewrite (scan_logs_silent _ _ _ Hs).
    all: destruct IH as [(before & e' & after & Hrest & Hb & Hr)|[Hall Hnone]].
    all: try (left; exists (log_entry :: before), e', after;
              split; [simpl; f_equal; exact Hrest|];
              split; [by constructor | done]).
    all: right; split; [by constructor | exact Hnone].
Qed.

Lemma first_report_functional target_url browser_logs s1 s2 :
  first_report json_loads target_url browser_logs s1 →
  first_report json_loads target_url browser_logs s2 → s1 = s2.
Proof.
  revert s1 s2. induction browser_logs as [|e rest IH]; intros s1 s2 H1 H2.
  - destruct H1 as [(b1 & e1 & a1 & Heq & _)|[_ ->]];
      [by destruct b1|].
    destruct H2 as [(b2 & e2 & a2 & Heq & _)|[_ ->]]; [by destruct b2|done].
  - assert (∀ s, first_report json_loads target_url (e :: rest) s →
              reports json_loads target_url e s ∨
              (silent json_loads target_url e ∧
               first_report json_loads target_url rest s)) as Hcase.
    { intros s [(b & e' & a & Heq & Hb & Hr)|[Hall ->]].
      - destruct b as [|e0 b]; simpl in Heq; injection Heq as <- ->.
        + by left.
        + apply Forall_cons in Hb as [? ?]. right. split; [done|].
          left. by exists b, e', a.
      - apply Forall_cons in Hall as [? ?]. right. split; [done|].
        right. by split. }
    destruct (Hcase _ H1) as [R1|[S1 F1]], (Hcase _ H2) as [R2|[S2 F2]].
    + by eapply reports_functional.
    + by apply S2 in R1.
    + by apply S1 in R2.
    + by apply IH.
Qed.

(** The log a call of [get_http_status_code_from_browser] scans is the one
    the driver hands over. *)
Lemma get_http_status_returns target_url (w w' : world B) status :
  get_http_status_code_from_browser target_url w = (w', Ok status) →
  ∃ b browser_logs,
    chrome_get_log b = Ok (chrome w', browser_logs) ∧
    status = scan_logs json_loads browser_logs target_url.
Proof.
  unfold get_http_status_code_from_browser.
  intros (w1 & [] & _ & Hrun)%bind_inv_ok.
  apply bind_inv_ok in Hrun as (w2 & [] & _ & Hrun).
  apply bind_inv_ok in Hrun as (w3 & logs & Hlog & Hret).
  injection Hret as <- <-.
  unfold driver_get_log in Hlog.
  apply bind_inv_ok in Hlog as (w4 & [] & _ & Hlog).
  unfold on_chrome in Hlog.
  destruct (chrome_get_log (chrome w4)) as [[b' logs']|] eqn:E; [|done].
  injection Hlog as <- <-. exists (chrome w4), logs'. by split.
Qed.

(** C8. For every captured log and target URL: what the scan returns is the
    status carried by the first entry that reports a
    [Network.responseReceived] for exactly that URL, and [None] when no
    entry does; that value is unique; an entry that is malformed, lacks a
    field or is about something else is passed over and the scan goes on
    with the rest; and the value [get_http_status_code_from_browser] returns
    is the scan of the log the driver handed over. *)
Theorem scan_logs_returns_first_matching_status :
  (∀ browser_logs target_url status,
     scan_logs json_loads browser_logs target_url = status ↔
     first_report json_loads target_url browser_logs status)
  ∧ (∀ browser_logs target_url,
       Forall (silent json_loads target_url) browser_logs →
       scan_logs json_loads browser_logs target_url = PNone)
  ∧ (∀ log_entry rest target_url,
       silent json_loads target_url log_entry →
       scan_logs json_loads (log_entry :: rest) target_url =
       scan_logs json_loads rest target_url)
  ∧ (∀ target_url (w w' : world B) status,
       get_http_status_code_from_browser target_url w = (w', Ok status) →
       ∃ b browser_logs,
         chrome_get_log b = Ok (chrome w', browser_logs) ∧
         first_report json_loads target_url browser_logs status).
Proof.
  split; [|split; [|split]].
  - intros logs url status. split.
    + intros <-. apply scan_logs_first_report.
    + intros Hfirst. eapply first_report_functional; [|exact Hfirst].
      apply scan_logs_first_report.
  - intros logs url Hall.
    eapply first_report_functional; [apply scan_logs_first_report|].
    right. by split.
  - intros. by apply scan_logs_silent.
  - intros url w w' status (b & logs & Hlog & ->)%get_http_status_returns.
    exists b, logs. split; [done|]. apply scan_logs_first_report.
Qed.

(** C7. [download_pdf_if_valid] leaves the world as the status fetch left
    it, and returns true exactly when the fetched status equals 200 and
    false exactly when a status was fetched that does not (404, 403, any
    other value, or [None]); it raises exactly when the fetch raised. *)
Theorem download_pdf_if_valid_true_iff_200 (pdf_url : string) (w : world B) :
  (download_pdf_if_valid pdf_url w).1 =
  (get_http_status_code_from_browser pdf_url w).1
  ∧ ((download_pdf_if_valid pdf_url w).2 = Ok true ↔
     ∃ status, (get_http_status_code_from_browser pdf_url w).2 = Ok status ∧
               equals_200 status)
  ∧ ((download_pdf_if_valid pdf_url w).2 = Ok false ↔
     ∃ status, (get_http_status_code_from_browser pdf_url w).2 = Ok status ∧
               ¬ equals_200 status)
  ∧ (∀ e, (download_pdf_if_valid pdf_url w).2 = Raise e ↔
          (get_http_status_code_from_browser pdf_url w).2 = Raise e).
Proof.
  unfold download_pdf_if_valid. rewrite bind_run.
  destruct (get_http_status_code_from_browser pdf_url w) as [w' [status|e]];
    simpl.
  - pose proof (py_eq_num_200 status) as H200.
    destruct (py_eq_num status 200 200%float); simpl.
    + split; [done|]. split; [|split].
      * split; [intros _; exists status; split; [done | by apply H200]|done].
      * split; [done|]. intros (st & [= <-] & Hn). exfalso. by apply Hn, H200.
      * done.
    + split; [done|]. split; [|split].
      * split; [done|]. intros (st & [= <-] & Hy). apply H200 in Hy. done.
      * split; [|done]. intros _. exists status. split; [done|].
        intros Hy%H200. done.
      * done.
  - split; [done|]. split; [|split].
    + split; [done | by intros (? & [=] & _)].
    + split; [done | by intros (? & [=] & _)].
    + intros e'. split; by intros [= ->].
Qed.

(** *** Files on disk *)

Lemma os_mkdir_files path : preserves (keeps_files (B:=B)) (os_mkdir path).
Proof.
  intros w p c Hp. unfold os_mkdir. run_binds.
  destruct (path_exists (fs w) path) eqn:E; simpl; [done|].
  rewrite lookup_insert_ne; [done|]. intros ->.
  unfold path_exists in E. by rewrite Hp in E.
Qed.

Lemma os_makedirs_files name :
  preserves (keeps_files (B:=B)) (os_makedirs_exist_ok name).
Proof.
  intros w p c Hp. unfold os_makedirs_exist_ok. run_binds.
  destruct (fs w !! name) as [[]|] eqn:E; simpl; try done.
  rewrite lookup_insert_ne; [done|]. intros ->. congruence.
Qed.

Lemma driver_get_files url : preserves keeps_files (driver_get url).
Proof.
  intros w p c Hp. unfold driver_get, on_chrome. run_binds.
  destruct (chrome_get url (chrome w)) as [[b saved]|e]; simpl; [|done].
  by apply foldl_save_download_keeps.
Qed.

Lemma download_files url : preserves keeps_files (download_pdf_if_valid url).
Proof.
  unfold download_pdf_if_valid,
    get_http_status_code_from_browser, driver_get_log.
  preserves_steps; apply driver_get_files.
Qed.

Lemma setup_browser_files dir : preserves keeps_files (setup_browser dir).
Proof.
  unfold setup_browser. preserves_steps. apply os_makedirs_files.
Qed.

Lemma validate_inputs_files paths :
  preserves (keeps_files (B:=B)) (validate_inputs paths).
Proof.
  induction paths as [|path rest IH]; simpl;
    unfold check_file_exists; preserves_steps; done.
Qed.

Lemma run_extract_files json_string base :
  preserves (keeps_files (B:=B))
    (run_extract_pdf_urls json_loads json_string base).
Proof.
  intros w p c. unfold run_extract_pdf_urls.
  by destruct (extract_pdf_urls _ _ _) as [lines r].
Qed.

Lemma per_url_loop_files pdf_ids : preserves keeps_files (per_url_loop pdf_ids).
Proof.
  induction pdf_ids as [|url rest IH]; simpl;
    unfold check_file_exists; preserves_steps; try done.
  apply download_files.
Qed.

Lemma main_files : preserves keeps_files main.
Proof.
  unfold main, check_directory_exists, create_directory_at_path,
    read_a_file, driver_quit.
  preserves_steps;
    first [ apply validate_inputs_files | apply os_mkdir_files
          | apply setup_browser_files | apply run_extract_files
          | apply per_url_loop_files ].
Qed.

Lemma is_file_kept (w w' : world B) path :
  keeps_files w w' → is_file (fs w) path = true → is_file (fs w') path = true.
Proof.
  unfold is_file. intros Hk.
  destruct (fs w !! path) as [[c|]|] eqn:E; try done.
  by rewrite (Hk _ _ E).
Qed.

(** *** The loop over the URLs *)

Lemma per_url_loop_step pdf_url rest (w : world B) :
  per_url_loop (pdf_url :: rest) w =
  if is_file (fs w) (download_path script_dir pdf_url)
  then per_url_loop rest (announced w pdf_url)
  else (download_pdf_if_valid pdf_url ≫= λ _, per_url_loop rest)
         (announced w pdf_url).
Proof.
  simpl. rewrite bind_run. simpl. rewrite bind_run, check_file_exists_run.
  simpl. unfold download_path.
  by destruct (is_file _ _).
Qed.

(** A URL whose file is on disk when the loop starts is never navigated
    to, at whatever place of the list it stands. *)
Lemma per_url_loop_skips pdf_ids pdf_url (w : world B) :
  pdf_url ≠ "about:blank" →
  is_file (fs w) (download_path script_dir pdf_url) = true →
  trace_adds (λ ev, ev ≠ EvGet pdf_url) w (per_url_loop pdf_ids w).1.
Proof.
  intros Hblank. revert w.
  induction pdf_ids as [|url rest IH]; intros w Hfile.
  - reflexivity.
  - rewrite per_url_loop_step.
    assert (trace_adds (λ ev, ev ≠ EvGet pdf_url) w (announced w url)) as Hann.
    { exists []. simpl. by rewrite app_nil_r. }
    destruct (is_file (fs w) (download_path script_dir url)) eqn:Hurl.
    + etrans; [exact Hann|]. by apply IH.
    + assert (url ≠ pdf_url) as Hne by (intros ->; congruence).
      etrans; [exact Hann|]. rewrite bind_run.
      pose proof (download_trace (λ ev, ev ≠ EvGet pdf_url) url) as Htr.
      pose proof (download_files url (announced w url)) as Hkeep.
      specialize (Htr ltac:(congruence) ltac:(congruence) ltac:(done)
                    (announced w url)).
      destruct (download_pdf_if_valid url (announced w url)) as [w1 [ok|e]];
        simpl in *; [|done].
      etrans; [exact Htr|]. apply IH.
      eapply is_file_kept; [exact Hkeep | exact Hfile].
Qed.

Lemma bind_guarded {A C} path (P : event → Prop)
    (m : M B A) (k : A → M B C) :
  (∀ w, is_file (fs w) path = true → trace_adds P w (m w).1) →
  preserves keeps_files m →
  (∀ a w, is_file (fs w) path = true → trace_adds P w (k a w).1) →
  ∀ w, is_file (fs w) path = true → trace_adds P w ((m ≫= k) w).1.
Proof.
  intros Hm Hkeep Hk w Hfile. rewrite bind_run.
  specialize (Hm w Hfile). specialize (Hkeep w).
  destruct (m w) as [w1 [a|e]]; simpl in *; [|done].
  etrans; [exact Hm|]. apply Hk. by eapply is_file_kept.
Qed.

Lemma main_skips pdf_url (w : world B) :
  pdf_url ≠ "about:blank" →
  is_file (fs w) (download_path script_dir pdf_url) = true →
  trace_adds (λ ev, ev ≠ EvGet pdf_url) w (main w).1.
Proof.
  intros Hblank. revert w. unfold main.
  apply bind_guarded;
    [intros; apply validate_inputs_trace | apply validate_inputs_files |].
  intros [] w Hfile; [|reflexivity]. revert w Hfile.
  apply bind_guarded;
    [intros; apply check_directory_exists_trace
    |unfold check_directory_exists; preserves_steps|].
  intros present. apply bind_guarded.
  { intros w _. destruct present; [reflexivity|].
    by apply os_mkdir_trace. }
  { destruct present; [preserves_steps | apply os_mkdir_files]. }
  intros _. apply bind_guarded;
    [intros; by apply setup_browser_trace | apply setup_browser_files |].
  intros _. apply bind_guarded;
    [intros; by apply read_a_file_trace
    |unfold read_a_file; preserves_steps|].
  intros content. apply bind_guarded;
    [intros; apply run_extract_trace | apply run_extract_files |].
  intros pdf_ids. apply bind_guarded;
    [intros; by apply per_url_loop_skips | apply per_url_loop_files |].
  intros _ w _. unfold driver_quit.
  assert (preserves (trace_adds (λ ev, ev ≠ EvGet pdf_url))
            (driver_quit (B:=B))) as Hq.
  { unfold driver_quit. preserves_steps. by apply emit_trace. }
  apply Hq.
Qed.

(** C6. A URL whose derived file is already in the output directory is
    skipped by the loop: its turn only prints the progress line, then the
    loop goes on with the rest.  Hence, if the file is there when the loop
    or [main] starts, no navigation to that URL is ever attempted, and no
    regular file on disk is removed or rewritten by a run; in particular a
    second run of [main] attempts no navigation for any URL whose file the
    first run left on disk.  The derived name is the text of the URL after
    its last ['/']. *)
Theorem existing_files_are_skipped :
  (∀ pdf_url rest (w : world B),
     is_file (fs w) (download_path script_dir pdf_url) = true →
     per_url_loop (pdf_url :: rest) w =
     per_url_loop rest (announced w pdf_url))
  ∧ (∀ pdf_ids pdf_url (w : world B),
       pdf_url ≠ "about:blank" →
       is_file (fs w) (download_path script_dir pdf_url) = true →
       ∃ evs, trace (per_url_loop pdf_ids w).1 = trace w ++ evs ∧
              EvGet pdf_url ∉ evs)
  ∧ (∀ (w : world B) path content,
       fs w !! path = Some (File content) →
       fs (main w).1 !! path = Some (File content))
  ∧ (∀ pdf_url (w : world B),
       pdf_url ≠ "about:blank" →
       let first_run := (main w).1 in
       is_file (fs first_run) (download_path script_dir pdf_url) = true →
       ∃ evs, trace (main first_run).1 = trace first_run ++ evs ∧
              EvGet pdf_url ∉ evs)
  ∧ (∀ pdf_url, ∃ prefix,
       pdf_url = prefix +:+ get_file_name_from_url pdf_url ∧
       rfind "/" (get_file_name_from_url pdf_url) = (-1)%Z ∧
       (prefix = "" ∨ endswith prefix "/" = true)).
Proof.
  assert (∀ url (evs : list event),
            Forall (λ ev, ev ≠ EvGet url) evs → EvGet url ∉ evs) as Hnot.
  { intros url evs Hall Hin. eapply Forall_forall in Hall; [|exact Hin].
    done. }
  split; [|split; [|split; [|split]]].
  - intros url rest w Hfile. by rewrite per_url_loop_step, Hfile.
  - intros ids url w Hblank Hfile.
    destruct (per_url_loop_skips ids url w Hblank Hfile) as (evs & ? & ?).
    exists evs. eauto.
  - intros w path content. apply main_files.
  - intros url w Hblank first_run Hfile.
    destruct (main_skips url first_run Hblank Hfile) as (evs & ? & ?).
    exists evs. eauto.
  - intros url. apply basename_spec.
Qed.

(** The loop ends normally when no driver call raises, and announces every
    URL in turn. *)
Lemma download_returns pdf_url (w : world B) :
  driver_never_raises →
  ∃ w' ok, download_pdf_if_valid pdf_url w = (w', Ok ok) ∧
           stdout w' = stdout w.
Proof.
  intros [Hget Hlog].
  unfold download_pdf_if_valid,
    get_http_status_code_from_browser, driver_get, driver_get_log,
    on_chrome.
  run_binds.
  destruct (Hget "about:blank" (chrome w)) as [[b1 s1] ->]. simpl. run_binds.
  destruct (Hget pdf_url b1) as [[b2 s2] ->]. simpl. run_binds.
  destruct (Hlog b2) as [[b3 logs] ->]. simpl.
  destruct (py_eq_num _ _ _); simpl; eauto.
Qed.

Lemma per_url_loop_returns pdf_ids (w : world B) :
  driver_never_raises →
  ∃ w', per_url_loop pdf_ids w = (w', Ok tt) ∧
        stdout w' = stdout w ++ map (λ url, "Processing URL: " +:+ url) pdf_ids.
Proof.
  intros Hnever. revert w.
  induction pdf_ids as [|url rest IH]; intros w.
  - exists w. simpl. by rewrite app_nil_r.
  - rewrite per_url_loop_step.
    destruct (is_file (fs w) (download_path script_dir url)).
    + destruct (IH (announced w url)) as (w' & -> & Hout).
      exists w'. split; [done|]. rewrite Hout. simpl.
      by rewrite <- app_assoc.
    + rewrite bind_run.
      destruct (download_returns url (announced w url) Hnever)
        as (w1 & ok & -> & Hout1).
      destruct (IH w1) as (w' & -> & Hout).
      exists w'. split; [done|]. rewrite Hout, Hout1. simpl.
      by rewrite <- app_assoc.
Qed.

(** C4, as the code has it.  The URLs are of characters below 128, which
    every console encodes, so that their progress line can be printed.  For
    such a URL whose file is not on disk: when the status fetch returns,
    whatever the status (200, any other code, or [None]), the loop goes on
    with the next URL; when a driver call raises during the fetch, the
    exception ends the loop.  So with a driver that never raises, the loop
    over such URLs returns after announcing every URL in order. *)
Theorem per_url_loop_continues_unless_driver_raises :
  (∀ pdf_url rest (w w1 : world B) status,
     ascii_text pdf_url →
     is_file (fs w) (download_path script_dir pdf_url) = false →
     get_http_status_code_from_browser pdf_url (announced w pdf_url)
       = (w1, Ok status) →
     per_url_loop (pdf_url :: rest) w = per_url_loop rest w1)
  ∧ (∀ pdf_url rest (w w1 : world B) e,
       ascii_text pdf_url →
       is_file (fs w) (download_path script_dir pdf_url) = false →
       get_http_status_code_from_browser pdf_url (announced w pdf_url)
         = (w1, Raise e) →
       per_url_loop (pdf_url :: rest) w = (w1, Raise e))
  ∧ (driver_never_raises →
     ∀ pdf_ids (w : world B),
       Forall ascii_text pdf_ids →
       ∃ w', per_url_loop pdf_ids w = (w', Ok tt) ∧
             stdout w' =
             stdout w ++ map (λ url, "Processing URL: " +:+ url) pdf_ids).
Proof.
  split; [|split].
  - intros url rest w w1 status _ Hfile Hstatus.
    rewrite per_url_loop_step, Hfile, bind_run.
    unfold download_pdf_if_valid.
    rewrite (bind_ok _ _ _ _ _ Hstatus). by destruct (py_eq_num _ _ _).
  - intros url rest w w1 e _ Hfile Hstatus.
    rewrite per_url_loop_step, Hfile, bind_run.
    unfold download_pdf_if_valid.
    by rewrite (bind_raise _ _ _ _ _ Hstatus).
  - intros Hnever ids w _. by apply per_url_loop_returns.
Qed.

(** *** Closing the browser *)

Lemma quit_count_app evs1 evs2 :
  quit_count (evs1 ++ evs2) = quit_count evs1 + quit_count evs2.
Proof. unfold quit_count. by rewrite filter_app, length_app. Qed.

Lemma quit_count_none evs :
  Forall (λ ev, ev ≠ EvQuit) evs → quit_count evs = 0.
Proof.
  unfold quit_count. induction 1 as [|ev evs Hev _ IH]; [done|].
  rewrite filter_cons. destruct ev; simpl; done.
Qed.

Lemma ends_in_quit_bind {A} (m : M B A) (k : A → M B unit) :
  preserves (trace_adds (λ ev, ev ≠ EvQuit)) m →
  (∀ a, ends_in_quit (k a)) →
  ends_in_quit (m ≫= k).
Proof.
  intros Hm Hk w. rewrite bind_run.
  destruct (Hm w) as (evs1 & Htr1 & Hno%quit_count_none).
  destruct (m w) as [w1 [a|e]]; simpl in *.
  - destruct (Hk a w1) as (evs2 & Htr2 & Hout).
    exists (evs1 ++ evs2). rewrite Htr2, Htr1, app_assoc. split; [done|].
    destruct ((k a w1).2) as [[]|e]; simpl in *.
    + destruct Hout as (before & -> & Hb).
      exists (evs1 ++ before). rewrite app_assoc. split; [done|].
      rewrite quit_count_app. lia.
    + rewrite quit_count_app, Hno. simpl. done.
  - exists evs1. split; [done|]. by left.
Qed.

Lemma driver_quit_ends_in_quit : ends_in_quit driver_quit.
Proof.
  intros w. exists [EvQuit]. unfold driver_quit, on_chrome. run_binds.
  destruct (chrome_quit (chrome w)) as [b|e] eqn:E; simpl.
  - split; [done|]. by exists [].
  - split; [done|]. right. split; [done|]. by exists (chrome w).
Qed.

(** C3, as the code has it. On every run of [main] that passes the input
    check: if [main] returns, [driver.quit] was invoked exactly once, as the
    last call; if an exception escapes [main] (from the directory, the
    launch, the listing, the extraction or a navigation), [driver.quit] was
    not invoked at all, except when it is [driver.quit] itself that
    raised. *)
Theorem main_quits_once_when_it_returns (w : world B) :
  inputs_present (fs w) →
  ∃ evs, trace (main w).1 = trace w ++ evs ∧
    match (main w).2 with
    | Ok _ => quit_count evs = 1 ∧ last evs = Some EvQuit
    | Raise e =>
        quit_count evs = 0 ∨
        (quit_count evs = 1 ∧ ∃ b, chrome_quit b = Raise e)
    end.
Proof.
  intros Hall. pose proof (validate_inputs_present _ w Hall) as Hv.
  unfold main. rewrite (bind_ok _ _ _ _ _ Hv).
  match goal with
  | |- ∃ evs, trace (?m w).1 = _ ∧ _ => assert (ends_in_quit m) as Hm
  end.
  { repeat match goal with
           | |- ends_in_quit (_ ≫= _) => apply ends_in_quit_bind; [|intros ?]
           end.
    - apply check_directory_exists_trace.
    - preserves_steps. by apply os_mkdir_trace.
    - by apply setup_browser_trace.
    - by apply read_a_file_trace.
    - apply run_extract_trace.
    - by apply per_url_loop_trace.
    - apply driver_quit_ends_in_quit. }
  destruct (Hm w) as (evs & Htr & Hout). exists evs. split; [done|].
  destruct (_.2) as [[]|e]; simpl in *; [|done].
  destruct Hout as (before & -> & Hb).
  rewrite quit_count_app, Hb, last_snoc. done.
Qed.

(** *** The second listing file *)

Lemma blind_ret {A} path (a : A) : blind_to (B:=B) path (mret a).
Proof. by intros w1 w2 Hag. Qed.

Lemma blind_raise {A} path e : blind_to (B:=B) path (raise (A:=A) e).
Proof. by intros w1 w2 Hag. Qed.

Lemma blind_bind {A C} path (m : M B A) (k : A → M B C) :
  blind_to path m → (∀ a, blind_to path (k a)) → blind_to path (m ≫= k).
Proof.
  intros Hm Hk w1 w2 Hag. rewrite !bind_run.
  destruct (Hm w1 w2 Hag) as [Hag' Hres].
  destruct (m w1) as [w1' r1], (m w2) as [w2' r2]; simpl in *. subst r2.
  destruct r1 as [a|e]; [by apply Hk | done].
Qed.

Lemma blind_print path line : blind_to (B:=B) path (print line).
Proof.
  intros w1 w2 (Hout & ? & ? & ? & ?). split; [|done].
  repeat split; simpl; try done. by rewrite Hout.
Qed.

Lemma blind_emit path ev : blind_to (B:=B) path (emit ev).
Proof.
  intros w1 w2 (? & Htr & ? & ? & ?). split; [|done].
  repeat split; simpl; try done. by rewrite Htr.
Qed.

Lemma blind_on_chrome {A} path (call : B → result (B * A)) :
  blind_to path (on_chrome call).
Proof.
  intros w1 w2 (? & ? & Hb & ? & ?). unfold on_chrome. rewrite Hb.
  destruct (call (chrome w2)) as [[b a]|e]; simpl; by repeat split.
Qed.

Lemma same_kind_is_file (n1 n2 : option fnode) :
  same_kind n1 n2 →
  match n1 with Some (File _) => true | _ => false end =
  match n2 with Some (File _) => true | _ => false end.
Proof. by destruct n1 as [[]|], n2 as [[]|]. Qed.

Lemma same_kind_exists (n1 n2 : option fnode) :
  same_kind n1 n2 →
  match n1 with Some _ => true | None => false end =
  match n2 with Some _ => true | None => false end.
Proof. by destruct n1 as [[]|], n2 as [[]|]. Qed.

(** Whatever path is asked about, the two worlds hold the same kind of
    thing there. *)
Lemma agree_off_kind path (w1 w2 : world B) p :
  agree_off path w1 w2 → same_kind (fs w1 !! p) (fs w2 !! p).
Proof.
  intros (_ & _ & _ & Hfs & Hkind).
  destruct (decide (p = path)) as [->|Hne]; [done|].
  rewrite (Hfs p Hne). by destruct (fs w2 !! p) as [[]|].
Qed.

Lemma blind_check_file_exists path p :
  blind_to (B:=B) path (check_file_exists p).
Proof.
  intros w1 w2 Hag. rewrite !check_file_exists_run. simpl.
  split; [done|]. f_equal. unfold is_file.
  by apply same_kind_is_file, (agree_off_kind path).
Qed.

Lemma blind_check_directory_exists path p :
  blind_to (B:=B) path (check_directory_exists p).
Proof.
  intros w1 w2 Hag. unfold check_directory_exists. rewrite !bind_run. simpl.
  split; [done|]. f_equal. unfold path_exists.
  by apply same_kind_exists, (agree_off_kind path).
Qed.

(** Writing the same entry at the same path on both sides. *)
Lemma agree_off_insert path (w1 w2 : world B) p node out tr (b : B) :
  agree_off path w1 w2 →
  agree_off path (World (<[p:=node]> (fs w1)) out tr b)
                 (World (<[p:=node]> (fs w2)) out tr b).
Proof.
  intros (? & ? & ? & Hfs & Hkind). repeat split; simpl.
  - intros q Hq. destruct (decide (p = q)) as [->|Hne].
    + by rewrite !lookup_insert_eq.
    + rewrite !lookup_insert_ne by done. by apply Hfs.
  - destruct (decide (p = path)) as [->|Hne].
    + rewrite !lookup_insert_eq. by destruct node.
    + by rewrite !lookup_insert_ne.
Qed.

Lemma blind_os_mkdir path p : blind_to (B:=B) path (os_mkdir p).
Proof.
  intros w1 w2 Hag. unfold os_mkdir. run_binds.
  pose proof (same_kind_exists _ _ (agree_off_kind path w1 w2 p Hag)) as Hk.
  unfold path_exists. rewrite Hk.
  destruct Hag as (Hout & Htr & Hb & Hfs & Hkind).
  destruct (fs w2 !! p); simpl.
  - rewrite Hout, Htr, Hb. by repeat split.
  - rewrite Hout, Htr, Hb. split; [|done].
    apply agree_off_insert. by repeat split.
Qed.

Lemma blind_os_makedirs path p :
  blind_to (B:=B) path (os_makedirs_exist_ok p).
Proof.
  intros w1 w2 Hag. unfold os_makedirs_exist_ok. run_binds.
  pose proof (agree_off_kind path w1 w2 p Hag) as Hk.
  destruct Hag as (Hout & Htr & Hb & Hfs & Hkind).
  destruct (fs w1 !! p) as [[]|], (fs w2 !! p) as [[]|]; simpl in *;
    try done; rewrite Hout, Htr, Hb.
  - by repeat split.
  - by repeat split.
  - split; [|done]. apply agree_off_insert. by repeat split.
Qed.

Lemma blind_read_a_file path p :
  p ≠ path → blind_to (B:=B) path (read_a_file p).
Proof.
  intros Hne w1 w2 Hag. unfold read_a_file. run_binds.
  destruct Hag as (Hout & Htr & Hb & Hfs & Hkind).
  rewrite (Hfs p Hne), Hout, Htr, Hb.
  destruct (fs w2 !! p) as [[]|]; simpl; by repeat split.
Qed.

Lemma agree_off_save_download path (m1 m2 : gmap string fnode) d :
  (∀ p, p ≠ path → m1 !! p = m2 !! p) → same_kind (m1 !! path) (m2 !! path) →
  (∀ p, p ≠ path → save_download m1 d !! p = save_download m2 d !! p)
  ∧ same_kind (save_download m1 d !! path) (save_download m2 d !! path).
Proof.
  intros Hfs Hkind. unfold save_download.
  destruct (decide (d.1 = path)) as [Heq|Hne].
  - rewrite Heq.
    destruct (m1 !! path) as [[]|] eqn:E1, (m2 !! path) as [[]|] eqn:E2;
      simpl in *; try done;
      try (split; [exact Hfs | by rewrite E1, E2]).
    split; [|by rewrite !lookup_insert_eq].
    intros p Hp. rewrite !lookup_insert_ne by done. by apply Hfs.
  - rewrite (Hfs _ Hne). destruct (m2 !! d.1); [done|]. split.
    + intros p Hp. destruct (decide (d.1 = p)) as [->|Hdp].
      * by rewrite !lookup_insert_eq.
      * rewrite !lookup_insert_ne by done. by apply Hfs.
    + by rewrite !lookup_insert_ne.
Qed.

Lemma agree_off_foldl_save path saved (m1 m2 : gmap string fnode) :
  (∀ p, p ≠ path → m1 !! p = m2 !! p) → same_kind (m1 !! path) (m2 !! path) →
  (∀ p, p ≠ path →
     foldl save_download m1 saved !! p = foldl save_download m2 saved !! p)
  ∧ same_kind (foldl save_download m1 saved !! path)
              (foldl save_download m2 saved !! path).
Proof.
  revert m1 m2. induction saved as [|d saved IH]; intros m1 m2 Hfs Hkind.
  - done.
  - simpl. destruct (agree_off_save_download path m1 m2 d Hfs Hkind).
    by apply IH.
Qed.

Lemma blind_driver_get path url : blind_to path (driver_get url).
Proof.
  intros w1 w2 (Hout & Htr & Hb & Hfs & Hkind).
  unfold driver_get, on_chrome. run_binds. rewrite Hb, Hout, Htr.
  destruct (chrome_get url (chrome w2)) as [[b saved]|e]; simpl.
  - destruct (agree_off_foldl_save path saved _ _ Hfs Hkind).
    by repeat split.
  - by repeat split.
Qed.

Lemma blind_run_extract path json_string base :
  blind_to (B:=B) path (run_extract_pdf_urls json_loads json_string base).
Proof.
  intros w1 w2 (Hout & Htr & Hb & Hfs & Hkind). unfold run_extract_pdf_urls.
  destruct (extract_pdf_urls _ _ _) as [lines r]. simpl.
  rewrite Hout. by repeat split.
Qed.

Ltac blind_steps :=
  repeat match goal with
    | |- blind_to _ (mret _) => apply blind_ret
    | |- blind_to _ (raise _) => apply blind_raise
    | |- blind_to _ (print _) => apply blind_print
    | |- blind_to _ (emit _) => apply blind_emit
    | |- blind_to _ (on_chrome _) => apply blind_on_chrome
    | |- blind_to _ (check_file_exists _) => apply blind_check_file_exists
    | |- blind_to _ (check_directory_exists _) =>
        apply blind_check_directory_exists
    | |- blind_to _ (os_makedirs_exist_ok _) => apply blind_os_makedirs
    | |- blind_to _ (driver_get _) => apply blind_driver_get
    | |- blind_to _ (run_extract_pdf_urls _ _ _) => apply blind_run_extract
    | |- blind_to _ (_ ≫= _) => apply blind_bind; [|intros ?]
    | |- blind_to _ (if ?b then _ else _) => destruct b
    end.

Lemma blind_per_url_loop path pdf_ids : blind_to path (per_url_loop pdf_ids).
Proof.
  induction pdf_ids as [|url rest IH]; simpl.
  - apply blind_ret.
  - unfold download_pdf_if_valid,
      get_http_status_code_from_browser, driver_get_log.
    blind_steps; exact IH.
Qed.

Lemma blind_validate_inputs path paths :
  blind_to (B:=B) path (validate_inputs paths).
Proof.
  induction paths as [|p rest IH]; simpl; blind_steps. exact IH.
Qed.

(** [main] cannot tell apart two worlds that differ only in the contents of
    the second listing file. *)
Lemma blind_main : blind_to "page_2.json" main.
Proof.
  unfold main, create_directory_at_path, setup_browser, driver_quit.
  blind_steps;
    first [ apply blind_validate_inputs | apply blind_os_mkdir
          | apply blind_per_url_loop | by apply blind_read_a_file ].
Qed.

Lemma main_opens_only_first_listing :
  preserves (trace_adds (λ ev, ∀ path, ev = EvOpen path → path = "page_1.json"))
    main.
Proof.
  unfold main.
  preserves_steps;
    first [ apply validate_inputs_trace | apply check_directory_exists_trace
          | by apply os_mkdir_trace | by apply setup_browser_trace
          | apply run_extract_trace | by apply per_url_loop_trace | idtac ].
  - apply read_a_file_trace. by intros path [= <-].
  - unfold driver_quit. preserves_steps. by apply emit_trace.
Qed.

(** C9. Two runs of [main] from worlds that differ only in the contents of
    the second listing file, [page_2.json], print the same lines (so the
    same URLs are processed, in the same order), make the same calls, leave
    the same browser state and return or raise the same, and their final
    worlds again differ at most in that file.  Besides, [page_2.json] is
    never opened: the only file a run opens is [page_1.json]. *)
Theorem main_ignores_second_listing (w1 w2 : world B) :
  agree_off "page_2.json" w1 w2 →
  stdout (main w1).1 = stdout (main w2).1
  ∧ trace (main w1).1 = trace (main w2).1
  ∧ chrome (main w1).1 = chrome (main w2).1
  ∧ (main w1).2 = (main w2).2
  ∧ agree_off "page_2.json" (main w1).1 (main w2).1
  ∧ ∃ evs, trace (main w1).1 = trace w1 ++ evs ∧
           (EvOpen "page_2.json" ∉ evs) ∧
           (∀ path, EvOpen path ∈ evs → path = "page_1.json").
Proof.
  intros Hag. destruct (blind_main w1 w2 Hag) as [Hag' Hres].
  pose proof Hag' as (Hout & Htr & Hb & _ & _).
  repeat (split; [done|]).
  destruct (main_opens_only_first_listing w1) as (evs & Hevs & Hall).
  exists evs. split; [done|].
  assert (∀ path, EvOpen path ∈ evs → path = "page_1.json") as Honly.
  { intros path Hin. eapply Forall_forall in Hall; [|exact Hin]. by apply Hall. }
  split; [|done]. intros Hin. by apply Honly in Hin.
Qed.

End ScriptFacts.

(** ** Failures inside the extractor *)

Section ExtractorFailures.

Variable json_loads : string → result pyval.

(** C2, as the code has it. [extract_pdf_urls] does not raise, prints one
    diagnostic line and returns the empty list when [json.loads] raises one
    of the classes the [except] clause names (malformed JSON is a
    [JSONDecodeError]) and when the value under [data.Data] is not iterable
    (a [TypeError]).  When the top-level value is an object and the key
    [data], or the key [Data] of the object under it, is missing, it returns
    the empty list and prints nothing.  And it returns without raising
    whenever the rows of the listing contain no empty list. *)
Theorem extract_pdf_urls_recovers_from_caught_errors (json_string base : string) :
  (∀ e, json_loads json_string = Raise e →
        caught_by_extract (exn_cls e) = true →
        extract_pdf_urls json_loads json_string base =
        (["Error parsing JSON: " +:+ exn_str e], Ok []))
  ∧ (∀ top data records e,
       json_loads json_string = Ok (PDict top) →
       dict_lookup "data" top = Some (PDict data) →
       dict_lookup "Data" data = Some records →
       py_iter records = Raise e →
       exn_cls e = TypeError ∧
       extract_pdf_urls json_loads json_string base =
       (["Error parsing JSON: " +:+ exn_str e], Ok []))
  ∧ (∀ top,
       json_loads json_string = Ok (PDict top) →
       dict_lookup "data" top = None →
       extract_pdf_urls json_loads json_string base = ([], Ok []))
  ∧ (∀ top data,
       json_loads json_string = Ok (PDict top) →
       dict_lookup "data" top = Some (PDict data) →
       dict_lookup "Data" data = None →
       extract_pdf_urls json_loads json_string base = ([], Ok []))
  ∧ (∀ rows,
       listing_rows json_loads json_string = Ok rows →
       PList [] ∉ rows →
       ∃ urls, extract_pdf_urls json_loads json_string base = ([], Ok urls)).
Proof.
  unfold extract_pdf_urls, extract_pdf_urls_try, listing_rows.
  split; [|split; [|split; [|split]]].
  - intros e -> Hc. simpl. by rewrite Hc.
  - intros top data records e -> Hdata HData Hiter. simpl.
    rewrite Hdata. simpl. rewrite HData. simpl. rewrite Hiter. simpl.
    assert (exn_cls e = TypeError) as Hcls
      by (destruct records; simpl in Hiter; try done;
          by injection Hiter as <-).
    by rewrite Hcls.
  - intros top -> Hdata. simpl. by rewrite Hdata.
  - intros top data -> Hdata HData. simpl. rewrite Hdata. simpl.
    by rewrite HData.
  - intros rows Hrows Hno. unfold listing_rows in Hrows. rewrite Hrows.
    simpl. destruct (pdf_ids_of_total rows Hno) as [ids ->]. simpl. eauto.
Qed.

End ExtractorFailures.

(** ** Concrete runs *)

Lemma demo_inputs_present page_1 page_2 :
  inputs_present (fs (Demo.world_with page_1 page_2)).
Proof. repeat constructor. Qed.

Lemma demo_worlds_agree page_1 page_2 page_2' :
  agree_off "page_2.json"
    (Demo.world_with page_1 page_2) (Demo.world_with page_1 page_2').
Proof.
  repeat split; simpl.
  intros p Hp. rewrite !lookup_insert. repeat case_decide; congruence.
Qed.

Lemma demo_site_404_never_raises :
  driver_never_raises (H := Demo.driver Demo.site_404).
Proof.
  split; simpl.
  - intros url b. destruct (String.eqb url "about:blank"); eauto.
  - intros b. eauto.
Qed.

(** The name derived from a URL is what follows its last ['/']; for a URL
    the script builds, that is the identifier. *)
Example file_name_of_url_examples :
  get_file_name_from_url
    "https://kik-sds.thewercs.com/MyDocuments/DownloadSingleFile?content=ABC123_PDF"
  = "DownloadSingleFile?content=ABC123_PDF"
  ∧ get_file_name_from_url (base_url +:+ "/" +:+ "ABC123_PDF") = "ABC123_PDF"
  ∧ download_path "/srv/app" (base_url +:+ "/" +:+ "ABC123_PDF")
    = "/srv/app/PDFs/ABC123_PDF".
Proof. repeat split; vm_compute; reflexivity. Qed.

(** What [status_code == 200] makes of the values a log can carry. *)
Example status_comparison_examples :
  py_eq_num (PInt 200) 200 200%float = true
  ∧ py_eq_num (PFloat 200%float) 200 200%float = true
  ∧ py_eq_num (PInt 404) 200 200%float = false
  ∧ py_eq_num (PInt 403) 200 200%float = false
  ∧ py_eq_num (PStr "200") 200 200%float = false
  ∧ py_eq_num (PBool true) 200 200%float = false
  ∧ py_eq_num PNone 200 200%float = false.
Proof. repeat split; vm_compute; reflexivity. Qed.

(** The shapes whose exception the [except] clause does not name: a
    top-level value or a [data] value that is not an object has no [get]
    ([AttributeError]), and [row[0]] of an empty row is an [IndexError]. *)
Example extract_pdf_urls_uncaught_shapes :
  extract_pdf_urls Demo.json_loads (Demo.js "'listing'") base_url
  = ([], Raise (Exn AttributeError "'str' object has no attribute 'get'"))
  ∧ extract_pdf_urls Demo.json_loads (Demo.js "{'data': 5}") base_url
    = ([], Raise (Exn AttributeError "'int' object has no attribute 'get'"))
  ∧ extract_pdf_urls Demo.json_loads (Demo.js "{'data': null}") base_url
    = ([], Raise (Exn AttributeError
                    "'NoneType' object has no attribute 'get'"))
  ∧ extract_pdf_urls Demo.json_loads
      (Demo.js "{'data': {'Data': [['a_PDF'], []]}}") base_url
    = ([], Raise (Exn IndexError "list index out of range")).
Proof. repeat split; vm_compute; reflexivity. Qed.

(** The shapes that are recovered or skipped. *)
Example extract_pdf_urls_recovered_shapes :
  extract_pdf_urls Demo.json_loads (Demo.js "{'data': {'Data': 5}}") base_url
  = (["Error parsing JSON: 'int' object is not iterable"], Ok [])
  ∧ extract_pdf_urls Demo.json_loads (Demo.js "{'data': {'Data': null}}")
      base_url
    = (["Error parsing JSON: 'NoneType' object is not iterable"], Ok [])
  ∧ extract_pdf_urls Demo.json_loads (Demo.js "{'data': {}}") base_url
    = ([], Ok [])
  ∧ extract_pdf_urls Demo.json_loads
      (Demo.js "{'data': {'Data': [7, 'a_PDF', [3], ['b_PDF', 1], {'k': []}]}}")
      "http://x"
    = ([], Ok ["http://x/b_PDF"]).
Proof. repeat split; vm_compute; reflexivity. Qed.

(** C1, on the listing of the specification's example. *)
Lemma extract_pdf_urls_example_in_order :
  extract_pdf_urls Demo.json_loads Demo.listing_abc "http://x"
    = ([], Ok ["http://x/a_PDF"; "http://x/c_PDF"])
  ∧ ∃ ids,
      selects [PList [PStr "a_PDF"]; PList [PStr "b_TXT"]; PList [PStr "c_PDF"]]
        ids
      ∧ ["http://x/a_PDF"; "http://x/c_PDF"]
        = map (λ ident, "http://x" +:+ "/" +:+ ident) ids.
Proof.
  assert (extract_pdf_urls Demo.json_loads Demo.listing_abc "http://x"
          = ([], Ok ["http://x/a_PDF"; "http://x/c_PDF"])) as Hrun
    by (vm_compute; reflexivity).
  split; [exact Hrun|].
  apply (proj1 (proj2 (extract_pdf_urls_only_pdf_rows_in_order
                         Demo.json_loads _ _ _ _ Hrun))).
  vm_compute. reflexivity.
Defined.

(** C2: a malformed listing is reported and yields no URL. *)
Lemma extract_pdf_urls_malformed_example :
  Demo.json_loads "{" = Raise (Exn JSONDecodeError "Expecting value")
  ∧ extract_pdf_urls Demo.json_loads "{" base_url
    = (["Error parsing JSON: Expecting value"], Ok []).
Proof.
  assert (Demo.json_loads "{" = Raise (Exn JSONDecodeError "Expecting value"))
    as Hloads by (vm_compute; reflexivity).
  split; [exact Hloads|].
  apply (proj1 (extract_pdf_urls_recovers_from_caught_errors
                  Demo.json_loads "{" base_url) _ Hloads).
  reflexivity.
Defined.

(** C2 fails as stated: with both keys missing the extractor returns the
    empty list but prints no diagnostic, and a top-level value that is not
    an object makes it raise. *)
Lemma extract_pdf_urls_silent_or_raising :
  (Demo.json_loads (Demo.js "{}") = Ok (PDict []) ∧
   extract_pdf_urls Demo.json_loads (Demo.js "{}") base_url = ([], Ok []) ∧
   ¬ recovers_with_diagnostic Demo.json_loads (Demo.js "{}") base_url)
  ∧ (Demo.json_loads "[]" = Ok (PList []) ∧
     extract_pdf_urls Demo.json_loads "[]" base_url
     = ([], Raise (Exn AttributeError "'list' object has no attribute 'get'")) ∧
     ¬ recovers_with_diagnostic Demo.json_loads "[]" base_url).
Proof.
  split; (split; [vm_compute; reflexivity|]);
    (split; [vm_compute; reflexivity|]); intros [line Hline];
    vm_compute in Hline; discriminate Hline.
Qed.

(** C3: a run that returns has quit the browser once, at the end. *)
Lemma main_quits_once_example :
  inputs_present (fs (Demo.world_with Demo.listing_abc ""))
  ∧ ∃ evs,
      trace (Demo.run_main (Demo.world_with Demo.listing_abc "")).1
      = trace (Demo.world_with Demo.listing_abc "") ++ evs
      ∧ match (Demo.run_main (Demo.world_with Demo.listing_abc "")).2 with
        | Ok _ => quit_count evs = 1 ∧ last evs = Some EvQuit
        | Raise e =>
            quit_count evs = 0 ∨
            (quit_count evs = 1 ∧
             ∃ b, chrome_quit (WebDriver := Demo.driver Demo.site) b = Raise e)
        end.
Proof.
  split; [apply demo_inputs_present|].
  apply (main_quits_once_when_it_returns (H := Demo.driver Demo.site)
           Demo.json_loads "/srv/app").
  apply demo_inputs_present.
Defined.

(** C3 fails as stated: the inputs are in place, the browser is launched,
    the navigation to the first URL raises, and the exception leaves [main]
    without any call of [driver.quit]. *)
Lemma main_leaves_browser_running_after_navigation_error :
  inputs_present (fs (Demo.world_with Demo.listing_xa ""))
  ∧ (Demo.run_main (Demo.world_with Demo.listing_xa "")).2
    = Raise (Exn WebDriverException
               "unknown error: net::ERR_CONNECTION_REFUSED")
  ∧ map is_quit (trace (Demo.run_main (Demo.world_with Demo.listing_xa "")).1)
    = [false; false; false; false; false; false]
  ∧ quit_count (trace (Demo.run_main (Demo.world_with Demo.listing_xa "")).1)
    = 0
  ∧ quit_count (trace (Demo.run_main (Demo.world_with Demo.listing_xa "")).1)
    ≠ 1.
Proof.
  split; [apply demo_inputs_present|].
  repeat split; try (vm_compute; reflexivity).
  vm_compute. discriminate.
Qed.

(** C4: with a driver that never raises the loop runs to its end, whatever
    the statuses. *)
Lemma per_url_loop_continues_example :
  driver_never_raises (H := Demo.driver Demo.site_404)
  ∧ Forall ascii_text [Demo.url_x; Demo.url_a]
  ∧ ∃ w',
      per_url_loop (H := Demo.driver Demo.site_404) Demo.json_loads "/srv/app"
        [Demo.url_x; Demo.url_a] (Demo.world_with "" "") = (w', Ok tt)
      ∧ stdout w'
        = stdout (Demo.world_with "" "")
          ++ map (λ url, "Processing URL: " +:+ url) [Demo.url_x; Demo.url_a].
Proof.
  assert (Forall ascii_text [Demo.url_x; Demo.url_a]) as Hascii
    by (repeat constructor; vm_compute; repeat split; lia).
  split; [apply demo_site_404_never_raises|]. split; [exact Hascii|].
  apply (proj2 (proj2 (per_url_loop_continues_unless_driver_raises
                         (H := Demo.driver Demo.site_404)
                         Demo.json_loads "/srv/app"))
           demo_site_404_never_raises _ _ Hascii).
Defined.

(** C4 fails as stated: the navigation to the first URL raises, the loop
    ends with that exception, and the second URL, which the server has and
    whose file is not on disk, is neither announced nor navigated to. *)
Lemma per_url_loop_stops_at_navigation_error :
  (Demo.run_loop [Demo.url_x; Demo.url_a] (Demo.world_with "" "")).2
  = Raise (Exn WebDriverException "unknown error: net::ERR_CONNECTION_REFUSED")
  ∧ stdout (Demo.run_loop [Demo.url_x; Demo.url_a] (Demo.world_with "" "")).1
    = ["Processing URL: " +:+ Demo.url_x]
  ∧ trace (Demo.run_loop [Demo.url_x; Demo.url_a] (Demo.world_with "" "")).1
    = [EvGet "about:blank"; EvGet Demo.url_x]
  ∧ Demo.site Demo.url_a = Some "200"
  ∧ is_file (fs (Demo.world_with "" "")) (download_path "/srv/app" Demo.url_a)
    = false.
Proof. repeat split; vm_compute; reflexivity. Qed.


(** C6: the second run does not navigate to the document the first run
    saved. *)
Lemma second_run_skips_saved_file :
  is_file (fs (Demo.run_main (Demo.world_with Demo.listing_abc "")).1)
    (download_path "/srv/app" Demo.url_a) = true
  ∧ ∃ evs,
      trace (Demo.run_main
               (Demo.run_main (Demo.world_with Demo.listing_abc "")).1).1
      = trace (Demo.run_main (Demo.world_with Demo.listing_abc "")).1 ++ evs
      ∧ EvGet Demo.url_a ∉ evs.
Proof.
  assert (is_file (fs (Demo.run_main (Demo.world_with Demo.listing_abc "")).1)
            (download_path "/srv/app" Demo.url_a) = true) as Hfile
    by (vm_compute; reflexivity).
  split; [exact Hfile|].
  apply (proj1 (proj2 (proj2 (proj2 (existing_files_are_skipped
                                       (H := Demo.driver Demo.site)
                                       Demo.json_loads "/srv/app"))))
           Demo.url_a (Demo.world_with Demo.listing_abc "")).
  - discriminate.
  - exact Hfile.
Defined.

(** C7: a 404 is not a download. *)
Lemma download_pdf_if_valid_404_example :
  (download_pdf_if_valid (H := Demo.driver Demo.site) Demo.json_loads
     Demo.url_c (Demo.world_with "" "")).2 = Ok false
  ∧ ∃ status,
      (get_http_status_code_from_browser (H := Demo.driver Demo.site)
         Demo.json_loads Demo.url_c (Demo.world_with "" "")).2 = Ok status
      ∧ ¬ equals_200 status.
Proof.
  assert ((download_pdf_if_valid (H := Demo.driver Demo.site) Demo.json_loads
             Demo.url_c (Demo.world_with "" "")).2 = Ok false) as Hrun
    by (vm_compute; reflexivity).
  split; [exact Hrun|].
  apply (proj1 (proj1 (proj2 (proj2 (download_pdf_if_valid_true_iff_200
                                       (H := Demo.driver Demo.site)
                                       Demo.json_loads Demo.url_c
                                       (Demo.world_with "" ""))))) Hrun).
Defined.

(** C8: a malformed entry and an entry for another URL are passed over; the
    first entry for the URL gives the status. *)
Lemma scan_logs_example :
  scan_logs Demo.json_loads
    [PDict [("message", PStr "{")];
     Demo.response_entry Demo.url_a "200";
     Demo.response_entry Demo.url_c "404";
     Demo.response_entry Demo.url_c "200"] Demo.url_c = PInt 404
  ∧ first_report Demo.json_loads Demo.url_c
      [PDict [("message", PStr "{")];
       Demo.response_entry Demo.url_a "200";
       Demo.response_entry Demo.url_c "404";
       Demo.response_entry Demo.url_c "200"] (PInt 404).
Proof.
  assert (scan_logs Demo.json_loads
            [PDict [("message", PStr "{")];
             Demo.response_entry Demo.url_a "200";
             Demo.response_entry Demo.url_c "404";
             Demo.response_entry Demo.url_c "200"] Demo.url_c = PInt 404)
    as Hscan by (vm_compute; reflexivity).
  split; [exact Hscan|].
  apply (proj1 (proj1 (scan_logs_returns_first_matching_status
                         (H := Demo.driver Demo.site) Demo.json_loads)
                  _ _ _) Hscan).
Defined.

(** C9: two runs that differ only in what [page_2.json] holds. *)
Lemma main_ignores_second_listing_example :
  agree_off "page_2.json"
    (Demo.world_with Demo.listing_abc "")
    (Demo.world_with Demo.listing_abc Demo.listing_xa)
  ∧ stdout (Demo.run_main (Demo.world_with Demo.listing_abc "")).1
    = stdout (Demo.run_main (Demo.world_with Demo.listing_abc Demo.listing_xa)).1
  ∧ trace (Demo.run_main (Demo.world_with Demo.listing_abc "")).1
    = trace (Demo.run_main (Demo.world_with Demo.listing_abc Demo.listing_xa)).1.
Proof.
  split; [apply demo_worlds_agree|].
  pose proof (main_ignores_second_listing (H := Demo.driver Demo.site)
                Demo.json_loads "/srv/app" _ _
                (demo_worlds_agree Demo.listing_abc "" Demo.listing_xa))
    as (Hout & Htr & _).
  split; [exact Hout | exact Htr].
Defined.

(** C10: a regular file sits where the output directory should be. *)
Lemma file_at_output_path_example :
  inputs_present
    (fs (Demo.initial_world
           [("page_1.json", File Demo.listing_abc); ("page_2.json", File "");
            ("/srv/app/PDFs", File "notes")]))
  ∧ (Demo.run_main
       (Demo.initial_world
          [("page_1.json", File Demo.listing_abc); ("page_2.json", File "");
           ("/srv/app/PDFs", File "notes")])).2
    = Raise (Exn FileExistsError
               ("[Errno 17] File exists: '" +:+ output_directory "/srv/app"
                +:+ "'"))
  ∧ (check_directory_exists "/srv/app/PDFs"
       (Demo.initial_world [("/srv/app/PDFs", Dir)])).2 = Ok true
  ∧ (check_directory_exists "/srv/app/PDFs" (Demo.initial_world [])).2
    = Ok false.
Proof.
  assert (inputs_present
            (fs (Demo.initial_world
                   [("page_1.json", File Demo.listing_abc);
                    ("page_2.json", File "");
                    ("/srv/app/PDFs", File "notes")]))) as Hin
    by (repeat constructor).
  split; [exact Hin|].
  destruct (file_at_output_path_raises_in_setup (H := Demo.driver Demo.site)
              Demo.json_loads "/srv/app") as [Hexists Hfile].
  split; [|split].
  - destruct (Hfile _ "notes" Hin) as [_ Hmain].
    + vm_compute. reflexivity.
    + unfold Demo.run_main. by rewrite Hmain.
  - by rewrite Hexists.
  - by rewrite Hexists.
Defined.

(** * Further properties of the script *)

(** ** The extractor *)

Section ExtractorLaws.

Variable json_loads : string → result pyval.

(** Rows that are not lists give no identifier and raise nothing. *)
Lemma pdf_ids_of_no_lists rows :
  Forall (λ row, ∀ l, row ≠ PList l) rows → pdf_ids_of rows = Ok [].
Proof.
  induction 1 as [|row rows Hrow _ IH]; simpl; [done|].
  rewrite IH. destruct row; simpl; try done. by destruct (Hrow l).
Qed.

Lemma pdf_ids_of_length rows ids :
  pdf_ids_of rows = Ok ids → (length ids ≤ length rows)%nat.
Proof.
  revert ids. induction rows as [|row rows IH]; simpl; intros ids.
  - by intros [= <-].
  - destruct (pdf_id_of_row row) as [keep|]; simpl; [|done].
    destruct (pdf_ids_of rows) as [ids'|]; simpl; [|done].
    specialize (IH ids' eq_refl).
    destruct keep; intros [= <-]; simpl; lia.
Qed.

(** X1. An exception that escapes [extract_pdf_urls] is never of a class
    the [except] clause names, comes with nothing printed, and is one of:
    the exception [json.loads] raised; the [AttributeError] of [.get] on a
    top-level value that is not an object; the same on a [data] value that
    is not an object; the [IndexError] of [row[0]] on an empty row. *)
Theorem extract_pdf_urls_escaping_exceptions (json_string base : string) e :
  (extract_pdf_urls json_loads json_string base).2 = Raise e →
  caught_by_extract (exn_cls e) = false
  ∧ (extract_pdf_urls json_loads json_string base).1 = []
  ∧ (json_loads json_string = Raise e
     ∨ (∃ v, json_loads json_string = Ok v ∧ (∀ d, v ≠ PDict d) ∧
             exn_cls e = AttributeError)
     ∨ (∃ top v, json_loads json_string = Ok (PDict top) ∧
                 dict_lookup "data" top = Some v ∧ (∀ d, v ≠ PDict d) ∧
                 exn_cls e = AttributeError)
     ∨ (∃ rows, listing_rows json_loads json_string = Ok rows ∧
                PList [] ∈ rows ∧ exn_cls e = IndexError)).
Proof.
  unfold extract_pdf_urls, extract_pdf_urls_try.
  destruct (listing_rows json_loads json_string) as [rows|e1] eqn:Hrows; simpl.
  - destruct (pdf_ids_of rows) as [ids|e2] eqn:Hids; simpl; [done|].
    destruct (pdf_ids_of_raise _ _ Hids) as [Hcls Hin].
    rewrite Hcls. simpl. intros [= <-]. rewrite Hcls.
    split; [done|]. split; [done|]. do 3 right. by exists rows.
  - destruct (caught_by_extract (exn_cls e1)) eqn:Hc; simpl; [done|].
    intros [= <-]. split; [done|]. split; [done|].
    unfold listing_rows in Hrows.
    destruct (json_loads json_string) as [v|e0]; simpl in Hrows;
      [|left; congruence].
    destruct v as [| | | | | |top];
      try (right; left; eexists; split; [done|];
           split; [done|]; by injection Hrows as <-).
    simpl in Hrows.
    destruct (dict_lookup "data" top) as [v|] eqn:Hdata; simpl in Hrows.
    + destruct v as [| | | | | |data];
        try (right; right; left; eexists _, _; split; [done|];
             split; [done|]; split; [done|]; by injection Hrows as <-).
      simpl in Hrows.
      destruct (default (PList []) (dict_lookup "Data" data)); simpl in Hrows;
        try done; injection Hrows as <-; done.
    + destruct (default (PList []) (dict_lookup "Data" [])); simpl in Hrows;
        try done; injection Hrows as <-; done.
Qed.

(** X2. When the value under [data.Data] is a string or an object, the
    comprehension runs over its characters or its keys, none of which is a
    list: [extract_pdf_urls] returns the empty list, prints nothing and
    raises nothing, whatever the string or the keys are. *)
Theorem extract_pdf_urls_string_or_object_listing
    (json_string base : string) top data records :
  json_loads json_string = Ok (PDict top) →
  dict_lookup "data" top = Some (PDict data) →
  dict_lookup "Data" data = Some records →
  (∃ text, records = PStr text) ∨ (∃ items, records = PDict items) →
  extract_pdf_urls json_loads json_string base = ([], Ok []).
Proof.
  intros Hloads Hdata HData Hshape.
  unfold extract_pdf_urls, extract_pdf_urls_try, listing_rows.
  rewrite Hloads. simpl. rewrite Hdata. simpl. rewrite HData. simpl.
  assert (∃ rows, py_iter records = Ok rows ∧
                  Forall (λ row, ∀ l, row ≠ PList l) rows) as (rows & -> & Hrows).
  { destruct Hshape as [[text ->]|[items ->]]; simpl; eexists; split; try done.
    - apply Forall_forall. by intros row [c [-> _]]%list_elem_of_fmap.
    - apply Forall_forall. by intros row [kv [-> _]]%list_elem_of_fmap. }
  simpl. by rewrite (pdf_ids_of_no_lists _ Hrows).
Qed.

(** X3. The base URL is only prepended: what [extract_pdf_urls] prints does
    not depend on it, and what it returns for a base is what it returns for
    the empty base with the base put in front of every URL (the same
    exception when it raises). *)
Theorem extract_pdf_urls_base_is_prepended (json_string base : string) :
  (extract_pdf_urls json_loads json_string base).1
  = (extract_pdf_urls json_loads json_string "").1
  ∧ (extract_pdf_urls json_loads json_string base).2
    = (urls ← (extract_pdf_urls json_loads json_string "").2;
       Ok (map (λ url, base +:+ url) urls)).
Proof.
  unfold extract_pdf_urls, extract_pdf_urls_try.
  destruct (listing_rows json_loads json_string) as [rows|e]; simpl.
  - destruct (pdf_ids_of rows) as [ids|e]; simpl.
    + split; [done|]. f_equal. rewrite map_map. done.
    + by destruct (caught_by_extract (exn_cls e)).
  - by destruct (caught_by_extract (exn_cls e)).
Qed.

(** X4. [extract_pdf_urls] prints nothing or exactly one line; the line is
    [Error parsing JSON: ] followed by the text of an exception of a class
    the [except] clause names, and then the empty list is returned.  When
    it returns URLs, they are at most as many as the listing has rows. *)
Theorem extract_pdf_urls_prints_at_most_one_line (json_string base : string) :
  ((extract_pdf_urls json_loads json_string base).1 = []
   ∨ ∃ e, caught_by_extract (exn_cls e) = true ∧
          extract_pdf_urls json_loads json_string base
          = (["Error parsing JSON: " +:+ exn_str e], Ok []))
  ∧ (∀ urls rows,
       (extract_pdf_urls json_loads json_string base).2 = Ok urls →
       listing_rows json_loads json_string = Ok rows →
       (length urls ≤ length rows)%nat).
Proof.
  unfold extract_pdf_urls, extract_pdf_urls_try.
  destruct (listing_rows json_loads json_string) as [rows|e]; simpl.
  - destruct (pdf_ids_of rows) as [ids|e] eqn:Hids; simpl.
    + split; [by left|]. intros urls rows' [= <-] [= <-].
      rewrite length_map. by apply pdf_ids_of_length.
    + destruct (caught_by_extract (exn_cls e)) eqn:Hc; simpl.
      * split; [right; by exists e|]. intros urls rows' [= <-] _. simpl. lia.
      * split; [by left | done].
  - destruct (caught_by_extract (exn_cls e)) eqn:Hc; simpl.
    + split; [right; by exists e | done].
    + split; [by left | done].
Qed.

(** X5. The comprehension goes through the rows one by one: over two lists
    of rows put end to end it gives the identifiers of the first followed by
    those of the second, so a row that is repeated gives its identifier
    again (nothing is merged), and it raises as soon as one part does. *)
Theorem pdf_ids_of_app (rows1 rows2 : list pyval) :
  pdf_ids_of (rows1 ++ rows2)
  = (ids1 ← pdf_ids_of rows1; ids2 ← pdf_ids_of rows2; Ok (ids1 ++ ids2)).
Proof.
  induction rows1 as [|row rows1 IH]; simpl.
  - by destruct (pdf_ids_of rows2).
  - destruct (pdf_id_of_row row) as [keep|]; simpl; [|done].
    rewrite IH. destruct (pdf_ids_of rows1) as [ids1|]; simpl; [|done].
    destruct (pdf_ids_of rows2) as [ids2|]; simpl; [|done].
    by destruct keep.
Qed.

End ExtractorLaws.

(** ** File names *)

Lemma string_app_assoc (s t u : string) : (s +:+ t) +:+ u = s +:+ t +:+ u.
Proof.
  induction s as [|c s IH]; [done|]. by rewrite !string_app_cons, IH.
Qed.

Lemma basename_no_slash (p : string) : rfind "/" p = (-1)%Z → basename p = p.
Proof. intros Hp. unfold basename. rewrite Hp. apply str_from_0. Qed.

Lemma rfind_app_slash (p s : string) : (0 ≤ rfind "/" (p +:+ "/" +:+ s))%Z.
Proof.
  induction p as [|a p IH].
  - rewrite string_app_nil_l. change ("/" +:+ s) with (String "/" s). simpl.
    pose proof (rfind_range "/" s).
    destruct (0 <=? rfind "/" s)%Z; lia.
  - rewrite string_app_cons. simpl.
    destruct (0 <=? rfind "/" (p +:+ "/" +:+ s))%Z eqn:E; lia.
Qed.

Lemma basename_after_slash (p s : string) :
  basename (p +:+ "/" +:+ s) = basename s.
Proof.
  induction p as [|a p IH].
  - rewrite string_app_nil_l. change ("/" +:+ s) with (String "/" s).
    rewrite basename_cons. destruct (0 <=? rfind "/" s)%Z eqn:E; [done|].
    apply Z.leb_gt in E. simpl. symmetry. apply basename_no_slash.
    pose proof (rfind_range "/" s). lia.
  - rewrite string_app_cons, basename_cons.
    pose proof (rfind_app_slash p s) as Hp. apply Z.leb_le in Hp.
    by rewrite Hp.
Qed.

Lemma basename_rfind (p : string) : rfind "/" (basename p) = (-1)%Z.
Proof. by destruct (basename_spec p) as (? & _ & ? & _). Qed.

(** X6. The name derived from a URL depends only on what follows its last
    ['/']: a prefix ending in ['/'] can be dropped, a URL ending in ['/']
    has the empty name, a URL without ['/'] is its own name, and deriving
    the name of a name changes nothing. *)
Theorem get_file_name_from_url_keeps_last_segment (prefix url : string) :
  get_file_name_from_url (prefix +:+ "/" +:+ url) = get_file_name_from_url url
  ∧ get_file_name_from_url (prefix +:+ "/") = ""
  ∧ (rfind "/" url = (-1)%Z → get_file_name_from_url url = url)
  ∧ get_file_name_from_url (get_file_name_from_url url)
    = get_file_name_from_url url.
Proof.
  unfold get_file_name_from_url. split; [|split; [|split]].
  - apply basename_after_slash.
  - rewrite <- (string_app_nil_r "/") at 1. by rewrite basename_after_slash.
  - apply basename_no_slash.
  - apply basename_no_slash, basename_rfind.
Qed.

Lemma endswith_pdfs_slash (p : string) : endswith (p +:+ "PDFs") "/" = false.
Proof.
  destruct (endswith (p +:+ "PDFs") "/") eqn:E; [|done].
  apply endswith_spec in E as [stem Heq]. exfalso.
  apply (f_equal String.length) in Heq as Hlen.
  rewrite !string_length_app in Hlen. simpl in Hlen.
  assert (String.length stem = String.length p + 3) as Hstem by lia.
  clear Hlen. revert stem Heq Hstem.
  induction p as [|a p IH]; intros stem Heq Hstem.
  - rewrite string_app_nil_l in Heq.
    destruct stem as [|c1 [|c2 [|c3 [|c4 stem]]]]; simpl in Hstem; try lia.
    rewrite !string_app_cons, string_app_nil_l in Heq. discriminate Heq.
  - destruct stem as [|c stem]; simpl in Hstem; [lia|].
    rewrite !string_app_cons in Heq. injection Heq as _ Heq.
    apply (IH stem); [done | lia].
Qed.

Lemma output_directory_join (script_dir name : string) :
  startswith_slash name = false →
  os_path_join (output_directory script_dir) name
  = output_directory script_dir +:+ "/" +:+ name.
Proof.
  intros Hname. unfold os_path_join at 1. rewrite Hname.
  assert (∃ p, output_directory script_dir = p +:+ "PDFs") as [p Hp].
  { unfold output_directory, os_path_join. simpl.
    destruct (_ || _); [by exists script_dir|].
    exists (script_dir +:+ "/"). by rewrite string_app_assoc. }
  rewrite Hp, endswith_pdfs_slash.
  destruct (String.eqb (p +:+ "PDFs") "") eqn:E; [|done].
  apply String.eqb_eq in E. apply (f_equal String.length) in E.
  rewrite string_length_app in E. simpl in E. lia.
Qed.

Lemma startswith_slash_rfind (name : string) :
  rfind "/" name = (-1)%Z → startswith_slash name = false.
Proof.
  destruct name as [|c name]; simpl; [done|].
  pose proof (rfind_range "/" name).
  destruct (0 <=? rfind "/" name)%Z; [lia|].
  destruct (Ascii.eqb c "/"); [lia | done].
Qed.

(** X7. The path the loop checks for a URL is always inside the output
    directory: it is the output directory, a ['/'], and the name derived
    from the URL ([os.path.join] never discards the directory, because a
    derived name has no ['/']).  The name can be read back from the path,
    and two URLs have the same path exactly when they have the same derived
    name. *)
Theorem download_path_is_inside_output_directory
    (script_dir url1 url2 : string) :
  download_path script_dir url1
  = output_directory script_dir +:+ "/" +:+ get_file_name_from_url url1
  ∧ get_file_name_from_url (download_path script_dir url1)
    = get_file_name_from_url url1
  ∧ (download_path script_dir url1 = download_path script_dir url2 ↔
     get_file_name_from_url url1 = get_file_name_from_url url2).
Proof.
  assert (∀ url, download_path script_dir url
                 = output_directory script_dir +:+ "/"
                   +:+ get_file_name_from_url url) as Hpath.
  { intros url. unfold download_path. apply output_directory_join.
    apply startswith_slash_rfind, basename_rfind. }
  assert (∀ url, get_file_name_from_url (download_path script_dir url)
                 = get_file_name_from_url url) as Hback.
  { intros url. rewrite Hpath. unfold get_file_name_from_url.
    rewrite basename_after_slash. apply basename_no_slash, basename_rfind. }
  split; [apply Hpath|]. split; [apply Hback|]. split.
  - intros Heq. by rewrite <- (Hback url1), Heq, Hback.
  - intros Heq. by rewrite !Hpath, Heq.
Qed.

(** ** Directories, the browser and the status fetch *)

Section ScriptLaws.

Context {B : Type} `{WebDriver B}.
Variable json_loads : string → result pyval.
Variable script_dir : string.

Local Abbreviation main := (main json_loads script_dir).
Local Abbreviation per_url_loop := (per_url_loop json_loads script_dir).
Local Abbreviation output_directory := (output_directory script_dir).
Local Abbreviation download_pdf_if_valid := (download_pdf_if_valid json_loads).
Local Abbreviation get_http_status_code_from_browser :=
  (get_http_status_code_from_browser json_loads).


(** X9. The download directory is a single name inside a directory that is
    there, as [main] has it (the output directory beside the script), so
    that [os.makedirs] has no parent to create.  When [setup_browser]
    returns, the download directory is a directory, no other entry of the
    file system changed, nothing was printed, and the calls were
    [os.makedirs] and then one launch, the launch getting the two
    command-line switches (no headless one) and the three preferences:
    downloads go to that directory, without a prompt, and PDFs are not
    opened in the browser. *)
Theorem setup_browser_on_return
    (parent name download_dir : string) (w w' : world B) :
  fs w !! parent = Some Dir →
  name ≠ "" →
  rfind "/" name = (-1)%Z →
  download_dir = os_path_join parent name →
  setup_browser download_dir w = (w', Ok tt) →
  fs w' !! download_dir = Some Dir
  ∧ (∀ p, p ≠ download_dir → fs w' !! p = fs w !! p)
  ∧ stdout w' = stdout w
  ∧ ∃ options,
      trace w' = trace w ++ [EvMakedirs download_dir; EvLaunch options]
      ∧ chrome_launch options (chrome w) = Ok (chrome w')
      ∧ arguments options = ["--disable-gpu"; "--no-sandbox"]
      ∧ dict_lookup "download.default_directory" (prefs options)
        = Some (PStr download_dir)
      ∧ dict_lookup "download.prompt_for_download" (prefs options)
        = Some (PBool false)
      ∧ dict_lookup "plugins.always_open_pdf_externally" (prefs options)
        = Some (PBool true).
Proof.
  intros _ _ _ _.
  unfold setup_browser, os_makedirs_exist_ok, on_chrome. run_binds.
  destruct (fs w !! download_dir) as [[content|]|] eqn:Hdir; simpl; [done| |].
  - run_binds. destruct (chrome_launch _ (chrome w)) as [b|e] eqn:Hl;
      simpl; [|done].
    intros [= <-]. simpl. split; [done|]. split; [done|]. split; [done|].
    eexists. split; [by rewrite <- app_assoc|]. by repeat split.
  - run_binds. destruct (chrome_launch _ (chrome w)) as [b|e] eqn:Hl;
      simpl; [|done].
    intros [= <-]. simpl. split; [by rewrite lookup_insert_eq|].
    split; [intros p Hp; by rewrite lookup_insert_ne|]. split; [done|].
    eexists. split; [by rewrite <- app_assoc|]. by repeat split.
Qed.

(** X10. A status fetch prints nothing and calls the driver in a fixed
    order: [about:blank], the URL, the log.  When it returns, the calls are
    exactly these three; when it raises, they are these three cut after the
    call that raised. *)
Theorem get_http_status_code_call_order (target_url : string) (w : world B) :
  stdout (get_http_status_code_from_browser target_url w).1 = stdout w
  ∧ ∃ evs,
      trace (get_http_status_code_from_browser target_url w).1
      = trace w ++ evs
      ∧ match (get_http_status_code_from_browser target_url w).2 with
        | Ok _ => evs = fetch_calls target_url
        | Raise _ =>
            evs = [EvGet "about:blank"]
            ∨ evs = [EvGet "about:blank"; EvGet target_url]
            ∨ evs = fetch_calls target_url
        end.
Proof.
  unfold get_http_status_code_from_browser, driver_get, driver_get_log,
    on_chrome, fetch_calls.
  run_binds.
  destruct (chrome_get "about:blank" (chrome w)) as [[b1 s1]|e1]; simpl.
  2: { split; [done|]. eexists. split; [done|]. by left. }
  run_binds.
  destruct (chrome_get target_url b1) as [[b2 s2]|e2]; simpl.
  2: { split; [done|]. eexists. split; [by rewrite <- app_assoc|].
       right. by left. }
  run_binds.
  destruct (chrome_get_log b2) as [[b3 logs]|e3]; simpl.
  - split; [done|]. eexists. split; [by rewrite <- !app_assoc|]. done.
  - split; [done|]. eexists. split; [by rewrite <- !app_assoc|].
    right. by right.
Qed.

(** *** What a run leaves on disk *)

#[global] Instance keeps_entries_preorder : PreOrder (@keeps_entries B).
Proof. split; [by intros w p n | intros w1 w2 w3 H1 H2 p n ?; eauto]. Qed.














(** *** The calls of a run *)










(** *** What [main] writes itself *)

#[global] Instance same_off_preorder path : PreOrder (@same_off B path).
Proof.
  split; [by intros w p | intros w1 w2 w3 H1 H2 p Hp].
  by rewrite H2, H1.
Qed.

Lemma print_same_off path line : preserves (same_off (B:=B) path) (print line).
Proof. by intros w p. Qed.

Lemma emit_same_off path ev : preserves (same_off (B:=B) path) (emit ev).
Proof. by intros w p. Qed.

Lemma get_fs_same_off path : preserves (same_off (B:=B) path) get_fs.
Proof. by intros w p. Qed.

Lemma on_chrome_same_off {A} path (call : B → result (B * A)) :
  preserves (same_off (B:=B) path) (on_chrome call).
Proof.
  intros w p. unfold on_chrome. by destruct (call (chrome w)) as [[b a]|e].
Qed.

Ltac same_off_steps :=
  repeat match goal with
    | |- preserves _ (mret _) => apply preserves_ret; tc_solve
    | |- preserves _ (raise _) => apply preserves_raise; tc_solve
    | |- preserves (same_off _) (print _) => apply print_same_off
    | |- preserves (same_off _) (emit _) => apply emit_same_off
    | |- preserves (same_off _) get_fs => apply get_fs_same_off
    | |- preserves (same_off _) (on_chrome _) => apply on_chrome_same_off
    | |- preserves _ (_ ≫= _) => apply preserves_bind; [tc_solve | | intros ?]
    | |- preserves _ (if ?b then _ else _) => destruct b
    | |- preserves _ (match ?x with _ => _ end) => destruct x
    end.

Lemma os_mkdir_same_off path :
  preserves (same_off (B:=B) path) (os_mkdir path).
Proof.
  intros w p Hp. unfold os_mkdir. run_binds.
  destruct (path_exists (fs w) path); simpl; [done|].
  by rewrite lookup_insert_ne.
Qed.

Lemma os_makedirs_same_off name :
  preserves (same_off (B:=B) name) (os_makedirs_exist_ok name).
Proof.
  intros w p Hp. unfold os_makedirs_exist_ok. run_binds.
  destruct (fs w !! name) as [[]|]; simpl; try done.
  by rewrite lookup_insert_ne.
Qed.

Lemma driver_get_same_off path url :
  driver_saves_nothing → preserves (same_off path) (driver_get url).
Proof.
  intros Hnone w p Hp. unfold driver_get, on_chrome. run_binds.
  destruct (chrome_get url (chrome w)) as [[b saved]|e] eqn:E; simpl; [|done].
  by rewrite (Hnone _ _ _ _ E).
Qed.

Lemma per_url_loop_same_off path pdf_ids :
  driver_saves_nothing → preserves (same_off path) (per_url_loop pdf_ids).
Proof.
  intros Hnone. induction pdf_ids as [|url rest IH]; simpl;
    unfold check_file_exists, download_pdf_if_valid,
      get_http_status_code_from_browser, driver_get_log;
    same_off_steps; try done; by apply driver_get_same_off.
Qed.

Lemma validate_inputs_same_off path paths :
  preserves (same_off (B:=B) path) (validate_inputs paths).
Proof.
  induction paths as [|p rest IH]; simpl;
    unfold check_file_exists; same_off_steps; done.
Qed.

(** X14. [main] writes nothing itself but the output directory: with a
    browser that saves no file, every path other than the output directory
    holds at the end of a run exactly what it held at the start (nothing
    added, removed or changed), however the run ends. *)
Theorem main_writes_only_output_directory (w : world B) (path : string) :
  driver_saves_nothing →
  path ≠ output_directory →
  fs (main w).1 !! path = fs w !! path.
Proof.
  intros Hnone. revert path.
  change (same_off output_directory w (main w).1). revert w.
  change (preserves (same_off output_directory) main).
  unfold main, check_directory_exists, create_directory_at_path,
    setup_browser, read_a_file, driver_quit.
  same_off_steps;
    first [ apply validate_inputs_same_off | apply os_mkdir_same_off
          | apply os_makedirs_same_off
          | by apply per_url_loop_same_off | idtac ].
  intros w p Hp. unfold run_extract_pdf_urls.
  by destruct (extract_pdf_urls _ _ _).
Qed.

(** *** The scan of the log *)

(** X15. The scan of a log made of two parts: if no entry of the first part
    reports for the URL, the result is the scan of the second part; if some
    entry of the first part reports, the result is the scan of the first
    part alone, whatever follows.  In particular the first reporting entry
    decides: when it carries [null] as status the result is [None], even if
    a later entry carries a status for the same URL. *)
Theorem scan_logs_app (logs1 logs2 : list pyval) (target_url : string) :
  (Forall (silent json_loads target_url) logs1 →
   scan_logs json_loads (logs1 ++ logs2) target_url
   = scan_logs json_loads logs2 target_url)
  ∧ (∀ log_entry status,
       log_entry ∈ logs1 →
       reports json_loads target_url log_entry status →
       scan_logs json_loads (logs1 ++ logs2) target_url
       = scan_logs json_loads logs1 target_url)
  ∧ (∀ log_entry,
       reports json_loads target_url log_entry PNone →
       scan_logs json_loads (log_entry :: logs2) target_url = PNone).
Proof.
  split; [|split].
  - induction 1 as [|e rest He _ IH]; [done|].
    simpl app. by rewrite !scan_logs_silent.
  - intros e status Hin Hrep.
    induction logs1 as [|e1 rest IH]; [by apply elem_of_nil in Hin|].
    simpl.
    destruct (log_entry_status json_loads e1 target_url) as [[st|]|] eqn:E1;
      [done| |].
    all: apply elem_of_cons in Hin as [->|Hin]; [|by apply IH].
    all: apply log_entry_status_reports in Hrep; congruence.
  - intros e Hrep. simpl.
    apply log_entry_status_reports in Hrep. by rewrite Hrep.
Qed.

End ScriptLaws.

(** ** The line reader *)

Lemma is_space_lower_char c : is_space (lower_char c) = is_space c.
Proof. destruct c as [[] [] [] [] [] [] [] []]; reflexivity. Qed.

Lemma is_upper_lower_char c : is_upper (lower_char c) = false.
Proof. destruct c as [[] [] [] [] [] [] [] []]; reflexivity. Qed.

Lemma lower_char_not_upper c : is_upper c = false → lower_char c = c.
Proof. unfold is_upper, lower_char. by intros ->. Qed.

Lemma lower_char_line_break c :
  not_line_break (lower_char c) = not_line_break c.
Proof. destruct c as [[] [] [] [] [] [] [] []]; reflexivity. Qed.

Lemma first_char_lower s c :
  first_char (str_lower s) = Some c →
  ∃ c0, first_char s = Some c0 ∧ c = lower_char c0.
Proof. destruct s; simpl; [done|]. intros [= <-]. eauto. Qed.

Lemma last_char_lower s c :
  last_char (str_lower s) = Some c →
  ∃ c0, last_char s = Some c0 ∧ c = lower_char c0.
Proof.
  induction s as [|a [|b r] IH]; simpl in *; [done| |done].
  intros [= <-]. eauto.
Qed.

Lemma str_lower_not_upper s :
  all_chars (λ c, negb (is_upper c)) (str_lower s) = true.
Proof.
  induction s as [|c r IH]; simpl; [done|].
  by rewrite is_upper_lower_char, IH.
Qed.

Lemma str_lower_fixed s :
  all_chars (λ c, negb (is_upper c)) s = true → str_lower s = s.
Proof.
  induction s as [|c r IH]; simpl; [done|].
  intros [Hc Hr]%andb_true_iff. apply negb_true_iff in Hc.
  by rewrite lower_char_not_upper, IH.
Qed.

Lemma str_lower_line_breaks s :
  all_chars not_line_break (str_lower s) = all_chars not_line_break s.
Proof.
  induction s as [|c r IH]; simpl; [done|].
  by rewrite lower_char_line_break, IH.
Qed.

Lemma first_char_lstrip s c :
  first_char (str_lstrip s) = Some c → is_space c = false.
Proof.
  induction s as [|a r IH]; simpl; [done|].
  destruct (is_space a) eqn:Ha; [done|]. simpl. by intros [= <-].
Qed.

Lemma first_char_rstrip s c :
  first_char (str_rstrip s) = Some c → first_char s = Some c.
Proof.
  destruct s as [|a r]; simpl; [done|].
  destruct (str_rstrip r); [by destruct (is_space a) | done].
Qed.

Lemma last_char_rstrip s c :
  last_char (str_rstrip s) = Some c → is_space c = false.
Proof.
  induction s as [|a r IH]; simpl; [done|].
  destruct (str_rstrip r) as [|b r'] eqn:Hr.
  - destruct (is_space a) eqn:Ha; simpl; [done|]. by intros [= <-].
  - done.
Qed.

Lemma all_chars_lstrip P s :
  all_chars P s = true → all_chars P (str_lstrip s) = true.
Proof.
  induction s as [|a r IH]; simpl; [done|].
  intros [Ha Hr]%andb_true_iff.
  destruct (is_space a); [by apply IH|]. simpl. by rewrite Ha, Hr.
Qed.

Lemma all_chars_rstrip P s :
  all_chars P s = true → all_chars P (str_rstrip s) = true.
Proof.
  induction s as [|a r IH]; simpl; [done|].
  intros [Ha Hr]%andb_true_iff. specialize (IH Hr).
  destruct (str_rstrip r) as [|b r'].
  - destruct (is_space a); simpl; [done|]. by rewrite Ha.
  - change (P a && all_chars P (String b r') = true). by rewrite Ha, IH.
Qed.

Lemma str_rstrip_app_lf s : str_rstrip (s +:+ String LF "") = str_rstrip s.
Proof.
  induction s as [|a r IH]; [done|].
  rewrite string_app_cons. simpl. by rewrite IH.
Qed.

Lemma str_strip_app_lf s : str_strip (s +:+ String LF "") = str_strip s.
Proof.
  unfold str_strip. induction s as [|a r IH]; [done|].
  rewrite string_app_cons. simpl. destruct (is_space a); [done|].
  rewrite <- string_app_cons. apply str_rstrip_app_lf.
Qed.

Lemma str_lstrip_fixed s :
  (∀ c, first_char s = Some c → is_space c = false) → str_lstrip s = s.
Proof.
  destruct s as [|a r]; simpl; [done|]. intros Hc. by rewrite (Hc a).
Qed.

Lemma str_rstrip_fixed s :
  (∀ c, last_char s = Some c → is_space c = false) → str_rstrip s = s.
Proof.
  induction s as [|a [|b r] IH]; [done| |].
  - intros Hc. simpl. by rewrite (Hc a).
  - intros Hc. change (str_rstrip (String a (String b r)))
      with (match str_rstrip (String b r) with
            | "" => if is_space a then "" else String a ""
            | r' => String a r'
            end).
    rewrite IH; [done|]. intros c Hl. by apply Hc.
Qed.

(** After the translation of line ends there is no [\r] left. *)
Lemma universal_newlines_no_cr s :
  all_chars (λ c, negb (Ascii.eqb c CR)) (universal_newlines s) = true.
Proof.
  cut (all_chars (λ c, negb (Ascii.eqb c CR)) (universal_newlines s) = true
       ∧ ∀ a, all_chars (λ c, negb (Ascii.eqb c CR))
                (universal_newlines (String a s)) = true).
  { by intros [? _]. }
  induction s as [|b r [IH1 IH2]].
  - split; [done|]. intros a. simpl. by destruct (Ascii.eqb a CR) eqn:E; simpl;
      rewrite ?E.
  - split; [apply IH2|]. intros a.
    change (universal_newlines (String a (String b r)))
      with (if Ascii.eqb a CR then
              if Ascii.eqb b LF then String LF (universal_newlines r)
              else String LF (universal_newlines (String b r))
            else String a (universal_newlines (String b r))).
    destruct (Ascii.eqb a CR) eqn:Ea.
    + destruct (Ascii.eqb b LF); simpl; [apply IH1 | apply IH2].
    + simpl all_chars. rewrite Ea. simpl. apply IH2.
Qed.

Lemma universal_newlines_fixed s :
  all_chars (λ c, negb (Ascii.eqb c CR)) s = true → universal_newlines s = s.
Proof.
  induction s as [|a r IH]; simpl; [done|].
  intros [Ha Hr]%andb_true_iff. apply negb_true_iff in Ha.
  by rewrite Ha, IH.
Qed.

Lemma file_lines_shape s :
  all_chars (λ c, negb (Ascii.eqb c CR)) s = true →
  Forall raw_line_shape (file_lines s).
Proof.
  induction s as [|a r IH]; simpl; [constructor|].
  intros [Ha Hr]%andb_true_iff. specialize (IH Hr).
  destruct (Ascii.eqb a LF) eqn:Elf.
  - constructor; [|done]. exists "". split; [done|]. by right.
  - assert (not_line_break a = true) as Hnb
      by (unfold not_line_break; by rewrite Elf, Ha).
    destruct (file_lines r) as [|line lines].
    + constructor; [|done]. exists (String a ""). split; [|by left].
      simpl. by rewrite Hnb.
    + apply Forall_cons in IH as [(body & Hbody & Hline) Hrest].
      constructor; [|done]. exists (String a body). split.
      * simpl. by rewrite Hnb, Hbody.
      * destruct Hline as [->| ->]; [by left | by right].
Qed.

Lemma non_empty_lines_clean raw_lines :
  Forall raw_line_shape raw_lines →
  Forall clean_line (non_empty_lines raw_lines).
Proof.
  induction 1 as [|raw rest (body & Hbody & Hraw) _ IH]; simpl; [constructor|].
  destruct (String.eqb (str_lower (str_strip raw)) "") eqn:E; [done|].
  apply String.eqb_neq in E. constructor; [|done].
  assert (str_strip raw = str_strip body) as Hstrip
    by (destruct Hraw as [-> | ->]; [done | apply str_strip_app_lf]).
  rewrite Hstrip in *. unfold clean_line. split; [done|].
  split; [|split; [|split]].
  - intros c (c0 & Hc0 & ->)%first_char_lower. rewrite is_space_lower_char.
    unfold str_strip in Hc0.
    by apply first_char_rstrip, first_char_lstrip in Hc0.
  - intros c (c0 & Hc0 & ->)%last_char_lower. rewrite is_space_lower_char.
    by apply last_char_rstrip in Hc0.
  - apply str_lower_not_upper.
  - rewrite str_lower_line_breaks. unfold str_strip.
    by apply all_chars_rstrip, all_chars_lstrip.
Qed.

Lemma non_empty_lines_length raw_lines :
  (length (non_empty_lines raw_lines) ≤ length raw_lines)%nat.
Proof.
  induction raw_lines as [|raw rest IH]; simpl; [done|].
  destruct (String.eqb _ ""); simpl; lia.
Qed.

Lemma all_chars_impl (P Q : ascii → bool) s :
  (∀ c, P c = true → Q c = true) →
  all_chars P s = true → all_chars Q s = true.
Proof.
  intros HPQ. induction s as [|a r IH]; simpl; [done|].
  intros [Ha Hr]%andb_true_iff. by rewrite (HPQ _ Ha), IH.
Qed.

Lemma all_chars_app P s t :
  all_chars P (s +:+ t) = all_chars P s && all_chars P t.
Proof.
  induction s as [|a r IH]; [done|].
  rewrite string_app_cons. simpl. by rewrite IH, andb_assoc.
Qed.

Lemma unlines_no_cr lines :
  Forall clean_line lines →
  all_chars (λ c, negb (Ascii.eqb c CR)) (unlines lines) = true.
Proof.
  induction 1 as [|line rest (_ & _ & _ & _ & Hnb) _ IH]; simpl; [done|].
  rewrite all_chars_app. simpl. rewrite IH, andb_true_r.
  eapply all_chars_impl; [|exact Hnb].
  intros c. unfold not_line_break. by intros [_ ?]%andb_true_iff.
Qed.

Lemma file_lines_line line text :
  all_chars not_line_break line = true →
  file_lines (line +:+ String LF text)
  = (line +:+ String LF "") :: file_lines text.
Proof.
  induction line as [|a r IH]; [done|].
  intros [Ha Hr]%andb_true_iff.
  rewrite !string_app_cons. simpl.
  unfold not_line_break in Ha. apply andb_true_iff in Ha as [Ha _].
  apply negb_true_iff in Ha. rewrite Ha. by rewrite (IH Hr).
Qed.

Lemma file_lines_unlines lines :
  Forall clean_line lines →
  file_lines (unlines lines) = map (λ line, line +:+ String LF "") lines.
Proof.
  induction 1 as [|line rest (_ & _ & _ & _ & Hnb) _ IH]; simpl; [done|].
  by rewrite (file_lines_line _ _ Hnb), IH.
Qed.

Lemma non_empty_lines_of_clean lines :
  Forall clean_line lines →
  non_empty_lines (map (λ line, line +:+ String LF "") lines) = lines.
Proof.
  induction 1 as [|line rest (Hne & Hfirst & Hlast & Hup & _) _ IH];
    simpl; [done|].
  rewrite str_strip_app_lf. unfold str_strip.
  rewrite (str_lstrip_fixed _ Hfirst), (str_rstrip_fixed _ Hlast),
    (str_lower_fixed _ Hup).
  apply String.eqb_neq in Hne. by rewrite Hne, IH.
Qed.

(** X16. On a regular file of characters below 128, [read_file_by_line]
    returns without touching the file system, and every line it returns is
    clean: not empty, without whitespace at either end, without capital
    letter and without line break; there are at most as many as the file has
    lines. *)
Theorem read_file_by_line_returns_clean_lines
    {B : Type} (file_name content : string) (w : world B) :
  fs w !! file_name = Some (File content) →
  ascii_text content →
  ∃ w',
    read_file_by_line file_name w = (w', Ok (cleaned_lines content))
    ∧ fs w' = fs w
    ∧ stdout w' = stdout w
    ∧ Forall clean_line (cleaned_lines content)
    ∧ (length (cleaned_lines content)
       ≤ length (file_lines (universal_newlines content)))%nat.
Proof.
  intros Hfile _. unfold read_file_by_line, read_a_file. run_binds.
  rewrite Hfile. simpl. eexists. split; [done|]. simpl.
  split; [done|]. split; [done|]. split.
  - apply non_empty_lines_clean, file_lines_shape, universal_newlines_no_cr.
  - apply non_empty_lines_length.
Qed.

(** X17. Reading is idempotent on its own output: for a text of characters
    below 128, the file that holds the returned lines, one per line, reads
    back as exactly these lines. *)
Theorem cleaned_lines_round_trip (content : string) :
  ascii_text content →
  cleaned_lines (unlines (cleaned_lines content)) = cleaned_lines content.
Proof.
  intros _.
  assert (Forall clean_line (cleaned_lines content)) as Hclean
    by apply non_empty_lines_clean, file_lines_shape,
       universal_newlines_no_cr.
  unfold cleaned_lines at 1.
  rewrite (universal_newlines_fixed _ (unlines_no_cr _ Hclean)).
  rewrite (file_lines_unlines _ Hclean).
  by apply non_empty_lines_of_clean.
Qed.

(** ** Duplicates *)

(** X18. [remove_duplicates_from_slice] returns each distinct element of
    its argument once: the result has no duplicate and the same elements as
    the argument.  So it is never longer than the argument and as long
    exactly when the argument has no duplicate, in which case it is a
    rearrangement of it; removing duplicates twice, from a rearranged
    argument, or from the argument repeated, gives the same elements.  The
    order of the result is that of the set and is left open: every
    comparison of two results is up to rearrangement. *)
Theorem remove_duplicates_from_slice_distinct (provided_slice : list string) :
  NoDup (remove_duplicates_from_slice provided_slice)
  ∧ (∀ x, x ∈ remove_duplicates_from_slice provided_slice
          ↔ x ∈ provided_slice)
  ∧ (length (remove_duplicates_from_slice provided_slice)
     ≤ length provided_slice)%nat
  ∧ (length (remove_duplicates_from_slice provided_slice)
     = length provided_slice ↔ NoDup provided_slice)
  ∧ (NoDup provided_slice →
     remove_duplicates_from_slice provided_slice ≡ₚ provided_slice)
  ∧ remove_duplicates_from_slice (remove_duplicates_from_slice provided_slice)
    ≡ₚ remove_duplicates_from_slice provided_slice
  ∧ (∀ other, provided_slice ≡ₚ other →
       remove_duplicates_from_slice provided_slice
       ≡ₚ remove_duplicates_from_slice other)
  ∧ remove_duplicates_from_slice (provided_slice ++ provided_slice)
    ≡ₚ remove_duplicates_from_slice provided_slice.
Proof.
  assert (∀ l, NoDup (remove_duplicates_from_slice l)) as Hnodup
    by (intros l; unfold remove_duplicates_from_slice; apply NoDup_elements).
  assert (∀ l x, x ∈ remove_duplicates_from_slice l ↔ x ∈ l) as Helem.
  { intros l x. unfold remove_duplicates_from_slice.
    by rewrite elem_of_elements, elem_of_list_to_set. }
  assert (∀ l, remove_duplicates_from_slice l ⊆+ l) as Hsub.
  { intros l. apply NoDup_submseteq; [apply Hnodup|].
    intros x. apply Helem. }
  assert (∀ l k, (∀ x, x ∈ l ↔ x ∈ k) →
                 remove_duplicates_from_slice l
                 ≡ₚ remove_duplicates_from_slice k) as Hsame.
  { intros l k Hlk. apply NoDup_Permutation; [apply Hnodup..|].
    intros x. by rewrite !Helem. }
  split; [apply Hnodup|]. split; [apply Helem|].
  split; [by apply submseteq_length|].
  split; [|split; [|split; [|split]]].
  - split.
    + intros Hlen.
      assert (remove_duplicates_from_slice provided_slice ≡ₚ provided_slice)
        as Hperm by (apply submseteq_length_Permutation; [done | lia]).
      rewrite <- Hperm. apply Hnodup.
    + intros Hnd. apply Permutation_length.
      apply NoDup_Permutation; [apply Hnodup | done | apply Helem].
  - intros Hnd. apply NoDup_Permutation; [apply Hnodup | done | apply Helem].
  - apply Hsame. intros x. apply Helem.
  - intros other Hperm. apply Hsame. intros x. by rewrite Hperm.
  - apply Hsame. intros x. rewrite elem_of_app. tauto.
Qed.

(** ** Concrete runs of the helpers and of the script *)

Lemma demo_site_404_saves_nothing :
  driver_saves_nothing (H := Demo.driver Demo.site_404).
Proof.
  intros url b b' saved. simpl.
  destruct (String.eqb url "about:blank"); intros [= _ <-]; reflexivity.
Qed.

Lemma demo_text_ascii : ascii_text demo_text.
Proof. vm_compute. repeat split; lia. Qed.

(** X1: a listing that is a list at top level. *)
Lemma extract_pdf_urls_escaping_example :
  (extract_pdf_urls Demo.json_loads "[]" base_url).2
  = Raise (Exn AttributeError "'list' object has no attribute 'get'")
  ∧ caught_by_extract AttributeError = false
  ∧ (extract_pdf_urls Demo.json_loads "[]" base_url).1 = [].
Proof.
  assert ((extract_pdf_urls Demo.json_loads "[]" base_url).2
          = Raise (Exn AttributeError "'list' object has no attribute 'get'"))
    as Hrun by (vm_compute; reflexivity).
  split; [exact Hrun|].
  pose proof (extract_pdf_urls_escaping_exceptions Demo.json_loads "[]"
                base_url _ Hrun) as (Hclass & Hout & _).
  split; [exact Hclass | exact Hout].
Defined.

(** X2: the listing is a string that would qualify as an identifier. *)
Lemma extract_pdf_urls_string_listing_example :
  Demo.json_loads (Demo.js "{'data': {'Data': 'a_PDF'}}")
  = Ok (PDict [("data", PDict [("Data", PStr "a_PDF")])])
  ∧ extract_pdf_urls Demo.json_loads (Demo.js "{'data': {'Data': 'a_PDF'}}")
      base_url
    = ([], Ok []).
Proof.
  assert (Demo.json_loads (Demo.js "{'data': {'Data': 'a_PDF'}}")
          = Ok (PDict [("data", PDict [("Data", PStr "a_PDF")])])) as Hloads
    by (vm_compute; reflexivity).
  split; [exact Hloads|].
  apply (extract_pdf_urls_string_or_object_listing Demo.json_loads _ base_url
           _ [("Data", PStr "a_PDF")] (PStr "a_PDF") Hloads).
  - reflexivity.
  - reflexivity.
  - left. exists "a_PDF". reflexivity.
Defined.

(** X4: two URLs out of the three rows of the specification's example. *)
Lemma extract_pdf_urls_count_example :
  (extract_pdf_urls Demo.json_loads Demo.listing_abc "http://x").2
  = Ok ["http://x/a_PDF"; "http://x/c_PDF"]
  ∧ listing_rows Demo.json_loads Demo.listing_abc
    = Ok [PList [PStr "a_PDF"]; PList [PStr "b_TXT"]; PList [PStr "c_PDF"]]
  ∧ (length ["http://x/a_PDF"; "http://x/c_PDF"]
     ≤ length [PList [PStr "a_PDF"]; PList [PStr "b_TXT"];
               PList [PStr "c_PDF"]])%nat.
Proof.
  assert ((extract_pdf_urls Demo.json_loads Demo.listing_abc "http://x").2
          = Ok ["http://x/a_PDF"; "http://x/c_PDF"]) as Hrun
    by (vm_compute; reflexivity).
  assert (listing_rows Demo.json_loads Demo.listing_abc
          = Ok [PList [PStr "a_PDF"]; PList [PStr "b_TXT"];
                PList [PStr "c_PDF"]]) as Hrows
    by (vm_compute; reflexivity).
  split; [exact Hrun|]. split; [exact Hrows|].
  exact (proj2 (extract_pdf_urls_prints_at_most_one_line Demo.json_loads
                  Demo.listing_abc "http://x") _ _ Hrun Hrows).
Defined.

(** X6: an identifier is its own name. *)
Lemma get_file_name_from_url_identifier_example :
  rfind "/" "ABC123_PDF" = (-1)%Z
  ∧ get_file_name_from_url "ABC123_PDF" = "ABC123_PDF".
Proof.
  assert (rfind "/" "ABC123_PDF" = (-1)%Z) as Hrfind
    by (vm_compute; reflexivity).
  split; [exact Hrfind|].
  exact (proj1 (proj2 (proj2 (get_file_name_from_url_keeps_last_segment
                                "" "ABC123_PDF"))) Hrfind).
Defined.


(** X9: the launch of the table-driven browser, the script directory
    being there. *)
Lemma setup_browser_example :
  fs (Demo.initial_world [("/srv/app", Dir)]) !! "/srv/app" = Some Dir
  ∧ "/srv/app/PDFs" = os_path_join "/srv/app" "PDFs"
  ∧ (setup_browser (H := Demo.driver Demo.site) "/srv/app/PDFs"
       (Demo.initial_world [("/srv/app", Dir)])).2 = Ok tt
  ∧ fs (setup_browser (H := Demo.driver Demo.site) "/srv/app/PDFs"
          (Demo.initial_world [("/srv/app", Dir)])).1 !! "/srv/app/PDFs"
    = Some Dir
  ∧ fs (setup_browser (H := Demo.driver Demo.site) "/srv/app/PDFs"
          (Demo.initial_world [("/srv/app", Dir)])).1 !! "/srv/app"
    = Some Dir.
Proof.
  assert (fs (Demo.initial_world [("/srv/app", Dir)]) !! "/srv/app"
          = Some Dir) as Hparent by (vm_compute; reflexivity).
  assert ("/srv/app/PDFs" = os_path_join "/srv/app" "PDFs") as Hjoin
    by (vm_compute; reflexivity).
  assert (setup_browser (H := Demo.driver Demo.site) "/srv/app/PDFs"
            (Demo.initial_world [("/srv/app", Dir)])
          = ((setup_browser (H := Demo.driver Demo.site) "/srv/app/PDFs"
                (Demo.initial_world [("/srv/app", Dir)])).1, Ok tt)) as Hrun
    by (vm_compute; reflexivity).
  split; [exact Hparent|]. split; [exact Hjoin|].
  split; [by rewrite Hrun|].
  destruct (setup_browser_on_return (H := Demo.driver Demo.site)
              "/srv/app" "PDFs" "/srv/app/PDFs"
              (Demo.initial_world [("/srv/app", Dir)])
              (setup_browser (H := Demo.driver Demo.site) "/srv/app/PDFs"
                 (Demo.initial_world [("/srv/app", Dir)])).1 Hparent)
    as (Hdir & Hrest & _).
  - discriminate.
  - vm_compute. reflexivity.
  - exact Hjoin.
  - exact Hrun.
  - split; [exact Hdir|]. rewrite Hrest; [exact Hparent | discriminate].
Defined.


(** X14: against a server that answers 404 for everything, no document
    appears in the output directory. *)
Lemma main_writes_only_output_directory_example :
  driver_saves_nothing (H := Demo.driver Demo.site_404)
  ∧ "/srv/app/PDFs/a_PDF" ≠ output_directory "/srv/app"
  ∧ fs (main (H := Demo.driver Demo.site_404) Demo.json_loads "/srv/app"
          (Demo.world_with Demo.listing_abc "")).1 !! "/srv/app/PDFs/a_PDF"
    = fs (Demo.world_with Demo.listing_abc "") !! "/srv/app/PDFs/a_PDF".
Proof.
  assert ("/srv/app/PDFs/a_PDF" ≠ output_directory "/srv/app") as Hpath
    by (vm_compute; discriminate).
  split; [apply demo_site_404_saves_nothing|]. split; [exact Hpath|].
  exact (main_writes_only_output_directory (H := Demo.driver Demo.site_404)
           Demo.json_loads "/srv/app" _ _ demo_site_404_saves_nothing Hpath).
Defined.

(** X15: the first entry for the URL carries [null]; the 200 after it is not
    looked at. *)
Lemma scan_logs_null_status_example :
  reports Demo.json_loads Demo.url_c (Demo.response_entry Demo.url_c "null")
    PNone
  ∧ scan_logs Demo.json_loads
      [Demo.response_entry Demo.url_c "null";
       Demo.response_entry Demo.url_c "200"] Demo.url_c
    = PNone.
Proof.
  assert (reports Demo.json_loads Demo.url_c
            (Demo.response_entry Demo.url_c "null") PNone) as Hreports.
  { eexists _, _, _, _, _.
    split; [vm_compute; reflexivity|].
    split; [vm_compute; reflexivity|].
    repeat split; vm_compute; reflexivity. }
  split; [exact Hreports|].
  exact (proj2 (proj2 (scan_logs_app Demo.json_loads [] _ Demo.url_c))
           _ Hreports).
Defined.

(** X16: the lines of the demo text. *)
Lemma read_file_by_line_example :
  ascii_text demo_text
  ∧ (read_file_by_line "urls.txt"
       (Demo.initial_world [("urls.txt", File demo_text)])).2
    = Ok ["alpha.pdf"; "beta"]
  ∧ Forall clean_line ["alpha.pdf"; "beta"].
Proof.
  split; [apply demo_text_ascii|].
  destruct (read_file_by_line_returns_clean_lines "urls.txt" demo_text
              (Demo.initial_world [("urls.txt", File demo_text)])
              eq_refl demo_text_ascii)
    as (w' & Hrun & _ & _ & Hclean & _).
  split; [by rewrite Hrun | exact Hclean].
Defined.

(** X17: the lines of the demo text, written out and read again. *)
Lemma cleaned_lines_round_trip_example :
  ascii_text demo_text
  ∧ cleaned_lines demo_text = ["alpha.pdf"; "beta"]
  ∧ cleaned_lines (unlines ["alpha.pdf"; "beta"]) = ["alpha.pdf"; "beta"].
Proof.
  split; [apply demo_text_ascii|]. split; [vm_compute; reflexivity|].
  exact (cleaned_lines_round_trip demo_text demo_text_ascii).
Defined.

(** X18: a list without duplicate is only rearranged. *)
Lemma remove_duplicates_from_slice_example :
  NoDup ["b_PDF"; "a_PDF"; "c_PDF"]
  ∧ remove_duplicates_from_slice ["b_PDF"; "a_PDF"; "c_PDF"]
    ≡ₚ ["b_PDF"; "a_PDF"; "c_PDF"]
  ∧ length (remove_duplicates_from_slice ["b_PDF"; "a_PDF"; "c_PDF"]) = 3.
Proof.
  assert (NoDup ["b_PDF"; "a_PDF"; "c_PDF"]) as Hnd.
  { repeat constructor; rewrite ?elem_of_cons, ?elem_of_nil;
      intros H; repeat destruct H as [H|H]; try discriminate H; exact H. }
  split; [exact Hnd|].
  destruct (remove_duplicates_from_slice_distinct ["b_PDF"; "a_PDF"; "c_PDF"])
    as (_ & _ & _ & Hlen & Hperm & _).
  split; [exact (Hperm Hnd) | exact (proj2 Hlen Hnd)].
Defined.
